(** * musicrec: a shallow embedding of the hybrid recommender

    The development follows the two modules that carry the logic of the
    repository:

    - [utility.py]: the CSV-backed feature store ([get_audio_features],
      [save_audio_features_to_csv], [data_clean], [save_to_csv],
      [apply_clustering]);
    - [backend.py]: the three signal sources and their combination
      ([recommend_from_cluster], [recommend_collaborative],
      [spotify_external_recommendations], [hybrid_recommendation]).

    Conventions of the embedding.

    - A Python call that can raise returns a [result]; code that also touches
      the CSV files runs in the monad [IO], which keeps the files written
      before an exception.
    - A CSV file is identified with the table pandas reads from it, and
      [to_csv] is a function of the table: two runs that write equal tables
      write equal bytes.  Quoting and number formatting are left to pandas;
      the one piece of text processing of the repository, [remove_comma], is
      modelled on the fields of a line in [Csv] and shown to leave the table
      as it is.
    - Floats are IEEE binary64 values ([PrimFloat.float]); a missing cell is
      NaN, as in pandas.
    - Third-party code is a parameter: the Spotify client [sp], scikit-learn's
      estimators and numpy's random generator (a list of draws). *)

From Stdlib Require Import String Ascii List ZArith Lia Bool Arith Permutation.
From Stdlib Require Import PrimFloat.
Import ListNotations.

Set Implicit Arguments.
Open Scope string_scope.
Open Scope list_scope.

(** ** Python results *)

Inductive exn : Set :=
| KeyError
| IndexError
| ValueError
| FileNotFoundError
| SpotifyException.

Inductive result (A : Type) : Type :=
| Ok (a : A)
| Raise (e : exn).

Arguments Ok {A} a.
Arguments Raise {A} e.

Definition bind {A B : Type} (m : result A) (k : A -> result B) : result B :=
  match m with
  | Ok a => k a
  | Raise e => Raise e
  end.

Declare Scope result_scope.
Delimit Scope result_scope with result.
Notation "x <- m ;; k" := (bind m (fun x => k))
  (at level 61, m at next level, right associativity) : result_scope.

Definition float := PrimFloat.float.

(** ** Records of the data model *)

(** The dictionaries built from a Spotify track object
    (backend.py 93-100 and 129-136, data_collection.py 38-45). *)
Record Track : Set := {
  track_id : string;
  track_name : string;
  artist_name : string;
  album_name : string;
  release_date : string;
  popularity : Z
}.

(** The eleven numeric audio features of a track. *)
Record AudioVector : Set := {
  danceability : float;
  energy : float;
  key : float;
  loudness : float;
  mode : float;
  speechiness : float;
  acousticness : float;
  instrumentalness : float;
  liveness : float;
  valence : float;
  tempo : float
}.

Inductive Feature : Set :=
| Danceability | Energy | Key | Loudness | Mode | Speechiness
| Acousticness | Instrumentalness | Liveness | Valence | Tempo.

Definition Feature_eqb (f g : Feature) : bool :=
  match f, g with
  | Danceability, Danceability | Energy, Energy | Key, Key
  | Loudness, Loudness | Mode, Mode | Speechiness, Speechiness
  | Acousticness, Acousticness | Instrumentalness, Instrumentalness
  | Liveness, Liveness | Valence, Valence | Tempo, Tempo => true
  | _, _ => false
  end.

(** [a[f]]: the value of column [f]. *)
Definition get_feature (f : Feature) (a : AudioVector) : float :=
  match f with
  | Danceability => danceability a
  | Energy => energy a
  | Key => key a
  | Loudness => loudness a
  | Mode => mode a
  | Speechiness => speechiness a
  | Acousticness => acousticness a
  | Instrumentalness => instrumentalness a
  | Liveness => liveness a
  | Valence => valence a
  | Tempo => tempo a
  end.

Definition tabulate (v : Feature -> float) : AudioVector :=
  {| danceability := v Danceability; energy := v Energy; key := v Key;
     loudness := v Loudness; mode := v Mode; speechiness := v Speechiness;
     acousticness := v Acousticness; instrumentalness := v Instrumentalness;
     liveness := v Liveness; valence := v Valence; tempo := v Tempo |}.

(** [a[f] = x]. *)
Definition set_feature (f : Feature) (x : float) (a : AudioVector) : AudioVector :=
  tabulate (fun g => if Feature_eqb g f then x else get_feature g a).

(** The dictionaries built by [get_audio_features] (utility.py 36-49). *)
Record AudioFeatures : Set := {
  af_track_id : string;
  af_values : AudioVector
}.

(** A row of the unified table: the inner join of a track and its audio
    features on [track_id] (utility.py 95). *)
Record Unified : Set := {
  u_track : Track;
  u_audio : AudioVector
}.

(** A row of the in-memory DataFrame the recommender works on: a pandas
    index label, the unified record and the cell of the [cluster] column
    ([None] when the cell is missing). *)
Record Row : Set := {
  index : nat;
  record : Unified;
  cluster : option Z
}.

(** [df.columns] matters to the code only through ['cluster' in df.columns]. *)
Record DataFrame : Set := {
  rows : list Row;
  cluster_in_columns : bool
}.

Definition row_track_id (r : Row) : string := track_id (u_track (record r)).

(** A row of [df[['track_name', 'artist_name']]]: the projection keeps the
    index label. *)
Record Rec : Set := {
  rec_index : nat;
  rec_track_name : string;
  rec_artist_name : string
}.

Definition project (r : Row) : Rec :=
  {| rec_index := index r;
     rec_track_name := track_name (u_track (record r));
     rec_artist_name := artist_name (u_track (record r)) |}.

(** ** pandas *)

Module Pandas.

(** [l] without its element at position [i]. *)
Definition remove_nth {A : Type} (i : nat) (l : list A) : list A :=
  firstn i l ++ skipn (S i) l.

(** [numpy.random.choice(len(pop), size=n, replace=False)] followed by
    [take]: [n] successive draws without replacement.  The generator is the
    list [rng] of its draws, each reduced modulo the size of what is left; a
    missing draw reads as 0. *)
Fixpoint choice {A : Type} (rng : list nat) (n : nat) (pop : list A) : list A :=
  match n, pop with
  | S n', x :: _ =>
      let i := Nat.modulo (hd 0%nat rng) (length pop) in
      nth i pop x :: choice (tl rng) n' (remove_nth i pop)
  | _, _ => []
  end.

(** [df.sample(n)] with the default [replace=False]: pandas raises
    ValueError for a negative [n] and for an [n] larger than the
    population. *)
Definition sample {A : Type} (rng : list nat) (n : Z) (df : list A) : result (list A) :=
  if (n <? 0)%Z then Raise ValueError
  else if (Z.of_nat (length df) <? n)%Z then Raise ValueError
  else Ok (choice rng (Z.to_nat n) df).

(** [df.drop_duplicates(subset=key)] with the default [keep='first']. *)
Fixpoint drop_duplicates_from {A K : Type} (eqb : K -> K -> bool) (key : A -> K)
    (seen : list K) (df : list A) : list A :=
  match df with
  | [] => []
  | r :: df' =>
      if existsb (eqb (key r)) seen then drop_duplicates_from eqb key seen df'
      else r :: drop_duplicates_from eqb key (key r :: seen) df'
  end.

Definition drop_duplicates {A K : Type} (eqb : K -> K -> bool) (key : A -> K)
    (df : list A) : list A :=
  drop_duplicates_from eqb key [] df.

(** [series.isin(values)]. *)
Definition isin (x : string) (values : list string) : bool :=
  existsb (String.eqb x) values.

End Pandas.

(** ** The Spotify client (spotipy), a parameter of the program *)

Module Spotify.

Record Artist : Set := { ar_name : string }.

Record Album : Set := { al_name : string; al_release_date : string }.

(** A track object of the Web API, as far as the program reads it. *)
Record TrackObject : Set := {
  tr_id : string;
  tr_name : string;
  tr_artists : list Artist;
  tr_album : Album;
  tr_popularity : Z
}.

(** An audio-features object: its [id] and the numeric features. *)
Record AudioFeaturesObject : Set := {
  afo_id : string;
  afo_features : AudioVector
}.

(** The three endpoints the recommender calls.  [audio_features] answers a
    batch of ids with one entry per id, [None] for an id the service has no
    analysis for; every call may raise. *)
Record Client : Type := {
  audio_features : list string -> result (list (option AudioFeaturesObject));
  track : string -> result TrackObject;
  recommendations :
    option (list string) -> option (list string) -> list string -> Z ->
    result (list TrackObject)
}.

End Spotify.

(** ** The CSV files *)

(** The three files of the store, each identified with the table read from
    it; [None] is a file that does not exist. *)
Record Files : Set := {
  jpop_dataset_csv : option (list Track);
  audio_features_dataset_csv : option (list AudioFeatures);
  combined_dataset_csv : option (list Unified)
}.

(** A file name, indexed by the type of the rows the file holds. *)
Inductive filename : Set -> Set :=
| jpop_dataset : filename Track
| audio_features_dataset : filename AudioFeatures
| combined_dataset : filename Unified.

Definition contents {R : Set} (f : filename R) (fs : Files) : option (list R) :=
  match f in filename R return option (list R) with
  | jpop_dataset => jpop_dataset_csv fs
  | audio_features_dataset => audio_features_dataset_csv fs
  | combined_dataset => combined_dataset_csv fs
  end.

Definition write {R : Set} (f : filename R) (df : list R) (fs : Files) : Files :=
  match f in filename R return list R -> Files with
  | jpop_dataset => fun df =>
      {| jpop_dataset_csv := Some df;
         audio_features_dataset_csv := audio_features_dataset_csv fs;
         combined_dataset_csv := combined_dataset_csv fs |}
  | audio_features_dataset => fun df =>
      {| jpop_dataset_csv := jpop_dataset_csv fs;
         audio_features_dataset_csv := Some df;
         combined_dataset_csv := combined_dataset_csv fs |}
  | combined_dataset => fun df =>
      {| jpop_dataset_csv := jpop_dataset_csv fs;
         audio_features_dataset_csv := audio_features_dataset_csv fs;
         combined_dataset_csv := Some df |}
  end df.

(** The [track_id] column of each file. *)
Definition id_column {R : Set} (f : filename R) : R -> string :=
  match f in filename R return R -> string with
  | jpop_dataset => track_id
  | audio_features_dataset => af_track_id
  | combined_dataset => fun u => track_id (u_track u)
  end.

(** The ids held by a file (none for a file that does not exist). *)
Definition ids {R : Set} (f : filename R) (fs : Files) : list string :=
  match contents f fs with
  | Some df => map (id_column f) df
  | None => []
  end.

(** A track id held by both source tables. *)
Definition shared (fs : Files) (k : string) : Prop :=
  In k (ids jpop_dataset fs) /\ In k (ids audio_features_dataset fs).

(** Code that reads and writes the files: a state monad over [Files] whose
    state survives an exception, as the files on disk do. *)
Definition IO (A : Type) : Type := Files -> result A * Files.

Definition ret {A : Type} (a : A) : IO A := fun fs => (Ok a, fs).

Definition raise {A : Type} (e : exn) : IO A := fun fs => (Raise e, fs).

Definition io_bind {A B : Type} (m : IO A) (k : A -> IO B) : IO B :=
  fun fs =>
    match m fs with
    | (Ok a, fs') => k a fs'
    | (Raise e, fs') => (Raise e, fs')
    end.

Definition lift {A : Type} (m : result A) : IO A := fun fs => (m, fs).

Declare Scope io_scope.
Delimit Scope io_scope with io.
Notation "x <- m ;; k" := (io_bind m (fun x => k))
  (at level 61, m at next level, right associativity) : io_scope.
Notation "m ;; k" := (io_bind m (fun _ => k))
  (at level 61, right associativity) : io_scope.

(** [m] removes no shared track id from the store, whether it returns or
    raises. *)
Definition keeps_shared {A : Type} (m : IO A) : Prop :=
  forall fs k, shared fs k -> shared (snd (m fs)) k.

(** [pd.read_csv(filename)]. *)
Definition read_csv {R : Set} (f : filename R) : IO (list R) :=
  fun fs =>
    match contents f fs with
    | Some df => (Ok df, fs)
    | None => (Raise FileNotFoundError, fs)
    end.

(** [df.to_csv(filename, index=False)]. *)
Definition to_csv {R : Set} (df : list R) (f : filename R) : IO unit :=
  fun fs => (Ok tt, write f df fs).

(** ** The text of a CSV file *)

Module Csv.

(** A line of a CSV file, as the list of its fields. *)
Definition line : Set := list string.

(** [line.rstrip(',\n')] (utility.py 124): the trailing commas go, and with
    them the trailing empty fields. *)
Fixpoint rstrip (fields : line) : line :=
  match fields with
  | [] => []
  | f :: fields' =>
      match rstrip fields' with
      | [] => if String.eqb f "" then [] else [f]
      | rest => f :: rest
      end
  end.

(** utility.py 113-127, on the lines of the file. *)
Definition remove_comma (lines : list line) : list line := map rstrip lines.

(** How pandas reads a line under a header of [width] columns: a blank line
    is skipped and a short line is completed with missing values. *)
Definition read_line (width : nat) (fields : line) : list line :=
  match fields with
  | [] => []
  | _ :: _ => [fields ++ repeat "" (width - length fields)]
  end.

Definition read_lines (width : nat) (lines : list line) : list line :=
  flat_map (read_line width) lines.

End Csv.

(** ** utility.py *)

Module Utility.

Import Pandas.

(** [range(start, stop, step)] for a positive [step]. *)
Fixpoint range_from (count start step : nat) : list nat :=
  match count with
  | O => []
  | S count' => start :: range_from count' (start + step) step
  end.

Definition range (start stop step : nat) : list nat :=
  range_from ((stop - start + (step - 1)) / step) start step.

(** [l[i:j]]. *)
Definition slice {A : Type} (i j : nat) (l : list A) : list A :=
  firstn (j - i) (skipn i l).

(** A [for] loop whose body may raise, threading the loop's variables. *)
Fixpoint for_each {A S : Type} (xs : list A) (body : A -> S -> result S) (s : S)
    : result S :=
  match xs with
  | [] => Ok s
  | x :: xs' =>
      match body x s with
      | Ok s' => for_each xs' body s'
      | Raise e => Raise e
      end
  end.

(** The dictionary of utility.py 36-49, for one non-null response. *)
Definition feature_dict (features : Spotify.AudioFeaturesObject) : AudioFeatures :=
  let v := Spotify.afo_features features in
  {| af_track_id := Spotify.afo_id features;
     af_values :=
       {| danceability := danceability v;
          energy := energy v;
          key := key v;
          loudness := loudness v;
          mode := mode v;
          speechiness := speechiness v;
          acousticness := acousticness v;
          instrumentalness := instrumentalness v;
          liveness := liveness v;
          valence := valence v;
          tempo := tempo v |} |}.

(** [[{...} for features in audio_features if features]]. *)
Definition non_null_dicts (audio_features : list (option Spotify.AudioFeaturesObject))
    : list AudioFeatures :=
  flat_map (fun features =>
              match features with
              | Some f => [feature_dict f]
              | None => []
              end) audio_features.

(** The ids answered by null. *)
Definition is_null (lookup : string -> option Spotify.AudioFeaturesObject) (id : string)
    : bool :=
  match lookup id with
  | Some _ => false
  | None => true
  end.

(** utility.py 22-50. *)
Definition get_audio_features (track_ids : list string) (sp : Spotify.Client)
    : result (list AudioFeatures) :=
  for_each (range 0 (length track_ids) 100)
    (fun i all_track_features =>
       bind (Spotify.audio_features sp (slice i (i + 100) track_ids))
         (fun audio_features =>
            Ok (all_track_features ++ non_null_dicts audio_features)))
    [].

(** utility.py 129-139: [None] stands for the column-less [pd.DataFrame()]
    returned when the file does not exist. *)
Definition load_dataset {R : Set} (f : filename R) : IO (option (list R)) :=
  fun fs => (Ok (contents f fs), fs).

(** utility.py 52-77.  [existing_df['track_id']] raises KeyError on the
    column-less frame; the new rows are appended to the file as they are
    ([to_csv(mode='a', header=False)]), after a line break that pandas
    skips as a blank line. *)
Definition save_audio_features_to_csv (audio_features : list AudioFeatures)
    (f : filename AudioFeatures) : IO unit :=
  (existing_df <- load_dataset f ;;
   match existing_df with
   | None => raise KeyError
   | Some existing =>
       let existing_ids := map (id_column f) existing in
       let new_features :=
         filter (fun feature => negb (isin (id_column f feature) existing_ids))
                audio_features in
       match new_features with
       | [] => ret tt
       | _ :: _ => to_csv (existing ++ new_features) f
       end
   end)%io.

(** utility.py 113-127, on the table held by the file.  Stripping the
    trailing commas of every line drops trailing empty fields only, which
    pandas reads back as missing values ([CsvFacts.remove_comma_read_back]):
    the table is the same.  Opening a missing file raises. *)
Definition remove_comma {R : Set} (f : filename R) : IO unit :=
  fun fs =>
    match contents f fs with
    | Some _ => (Ok tt, fs)
    | None => (Raise FileNotFoundError, fs)
    end.

(** [pd.merge(left, right, on='track_id', how='inner')]: the pairs of rows
    with equal keys, in the order of the left table. *)
Definition merge (left : list Track) (right : list AudioFeatures) : list Unified :=
  flat_map (fun j =>
              map (fun a => {| u_track := j; u_audio := af_values a |})
                  (filter (fun a => String.eqb (af_track_id a) (track_id j)) right))
           left.

(** [set(xs).intersection(ys)], used for membership only. *)
Definition intersection (xs ys : list string) : list string :=
  filter (fun x => isin x ys) xs.

(** utility.py 79-98.  With the columns of the two source tables the merge
    produces no [track_name_x]/[track_name_y] pair, so the renaming of
    lines 96-97 does not fire. *)
Definition data_clean : IO unit :=
  (jpop_df <- read_csv jpop_dataset ;;
   let jpop_df := drop_duplicates String.eqb track_id jpop_df in
   audio_df <- read_csv audio_features_dataset ;;
   let audio_df := drop_duplicates String.eqb af_track_id audio_df in
   let common_track_ids := intersection (map track_id jpop_df) (map af_track_id audio_df) in
   let jpop_df_filtered :=
     filter (fun r => isin (track_id r) common_track_ids) jpop_df in
   let audio_df_filtered :=
     filter (fun r => isin (af_track_id r) common_track_ids) audio_df in
   to_csv jpop_df_filtered jpop_dataset ;;
   to_csv audio_df_filtered audio_features_dataset ;;
   remove_comma audio_features_dataset ;;
   remove_comma combined_dataset ;;
   let combined_df := merge jpop_df_filtered audio_df_filtered in
   to_csv combined_df combined_dataset)%io.

(** utility.py 141-155.  A column-less frame contributes no row to
    [pd.concat]. *)
Definition save_to_csv {R : Set} (tracks : list R) (f : filename R) : IO unit :=
  (existing_df <- load_dataset f ;;
   let existing_df := match existing_df with Some df => df | None => [] end in
   let new_tracks_df := drop_duplicates String.eqb (id_column f) tracks in
   let combined_df :=
     drop_duplicates String.eqb (id_column f) (existing_df ++ new_tracks_df) in
   to_csv combined_df f)%io.

(** *** Clustering *)

Section Clustering.

(** scikit-learn and numpy, parameters of the program: the mean of the
    observed values of a column, [StandardScaler().fit_transform] on the
    matrix [df[features]] (one list per row) and
    [KMeans(n_clusters, random_state=42).fit_predict]. *)
Variable mean : list float -> float.
Variable StandardScaler_fit_transform : list (list float) -> list (list float).
Variable KMeans_fit_predict : nat -> list (list float) -> list Z.

Definition with_audio (r : Row) (a : AudioVector) : Row :=
  {| index := index r;
     record := {| u_track := u_track (record r); u_audio := a |};
     cluster := cluster r |}.

Definition with_cluster (r : Row) (c : option Z) : Row :=
  {| index := index r; record := record r; cluster := c |}.

(** [df[f]], the values of one column. *)
Definition column (f : Feature) (df : list Row) : list float :=
  map (fun r => get_feature f (u_audio (record r))) df.

(** [df[features]] as a matrix. *)
Definition matrix (features : list Feature) (df : list Row) : list (list float) :=
  map (fun r => map (fun f => get_feature f (u_audio (record r))) features) df.

Definition set_features (features : list Feature) (values : list float)
    (a : AudioVector) : AudioVector :=
  fold_left (fun a fv => set_feature (fst fv) (snd fv) a) (combine features values) a.

(** [df[features] = X]; pandas rejects a matrix of another height. *)
Definition assign (features : list Feature) (X : list (list float)) (df : list Row)
    : result (list Row) :=
  if negb (length X =? length df)%nat then Raise ValueError
  else Ok (map (fun rx =>
                  with_audio (fst rx)
                    (set_features features (snd rx) (u_audio (record (fst rx)))))
               (combine df X)).

Definition observed (col : list float) : list float :=
  filter (fun x => negb (PrimFloat.is_nan x)) col.

Definition mem_feature (f : Feature) (features : list Feature) : bool :=
  existsb (Feature_eqb f) features.

(** The value the imputer leaves in column [g] of row [r]: the mean of the
    observed cells of the column when [g] is imputed and the cell is NaN. *)
Definition imputed_cell (features : list Feature) (df : list Row) (g : Feature) (r : Row)
    : float :=
  let x := get_feature g (u_audio (record r)) in
  if mem_feature g features && PrimFloat.is_nan x
  then mean (observed (column g df))
  else x.

(** [SimpleImputer(strategy='mean').fit_transform(df[features])] assigned
    back to [df[features]]: every missing cell of a feature column becomes
    the mean of the observed cells of that column, computed on the table as
    it was.  scikit-learn rejects an empty matrix, and a column without any
    observed value is dropped from its output, which the assignment then
    rejects: both are ValueError. *)
Definition impute (features : list Feature) (df : list Row) : result (list Row) :=
  match df, features with
  | [], _ | _, [] => Raise ValueError
  | _ :: _, _ :: _ =>
      if existsb (fun f => match observed (column f df) with [] => true | _ => false end)
                 features
      then Raise ValueError
      else Ok (map (fun r => with_audio r (tabulate (fun g => imputed_cell features df g r)))
                   df)
  end.

(** utility.py 157-180. *)
Definition apply_clustering (df : DataFrame) (features : list Feature)
    : result DataFrame :=
  (imputed <- impute features (rows df) ;;
   if negb (cluster_in_columns df) then
     scaled <-
       assign features (StandardScaler_fit_transform (matrix features imputed)) imputed ;;
     let labels :=
       KMeans_fit_predict (Nat.min 10 (length scaled)) (matrix features scaled) in
     if negb (length labels =? length scaled)%nat then Raise ValueError
     else Ok {| rows := map (fun rl => with_cluster (fst rl) (Some (snd rl)))
                            (combine scaled labels);
                cluster_in_columns := true |}
   else
     Ok {| rows := imputed; cluster_in_columns := cluster_in_columns df |})%result.


End Clustering.

End Utility.

(** ** backend.py *)

Module Backend.

Import Pandas Utility.

(** backend.py 29. *)
Definition features : list Feature := [Danceability; Energy; Valence; Tempo; Acousticness].

(** What [hybrid_recommendation] returns: a DataFrame or a message. *)
Inductive Recommendations : Set :=
| Table (df : list Rec)
| Message (s : string).

Definition cluster_eqb (c d : option Z) : bool :=
  match c, d with
  | Some a, Some b => Z.eqb a b
  | _, _ => false
  end.

(** backend.py 39-54.  [.values[0]] raises IndexError when no row has the
    id; the sample size is the literal 5. *)
Definition recommend_from_cluster (rng : list nat) (track_id : string) (df : DataFrame)
    : result (list Rec) :=
  if negb (cluster_in_columns df) then Raise KeyError
  else
    match map cluster (filter (fun r => String.eqb (row_track_id r) track_id) (rows df)) with
    | [] => Raise IndexError
    | cluster_id :: _ =>
        (recommendations <-
           sample rng 5 (filter (fun r => cluster_eqb (cluster r) cluster_id) (rows df)) ;;
         Ok (map project recommendations))%result
    end.

(** [np.where(columns == x)[0][0]]. *)
Fixpoint index_of (x : string) (columns : list string) : option nat :=
  match columns with
  | [] => None
  | c :: columns' =>
      if String.eqb c x then Some O
      else option_map S (index_of x columns')
  end.

(** [columns[indices]]. *)
Fixpoint take (columns : list string) (indices : list nat) : result (list string) :=
  match indices with
  | [] => Ok []
  | i :: indices' =>
      match nth_error columns i with
      | None => Raise IndexError
      | Some c =>
          match take columns indices' with
          | Ok cs => Ok (c :: cs)
          | Raise e => Raise e
          end
      end
  end.

(** [pd.DataFrame(records)]: a fresh index 0, 1, ... *)
Definition from_records (records : list Track) : list Rec :=
  map (fun ir =>
         {| rec_index := fst ir;
            rec_track_name := track_name (snd ir);
            rec_artist_name := artist_name (snd ir) |})
      (combine (seq 0 (length records)) records).

(** The dictionary of backend.py 93-100 and 129-136; [artists][0] raises
    IndexError on an empty list. *)
Definition track_dict (id : string) (t : Spotify.TrackObject) : result Track :=
  match Spotify.tr_artists t with
  | [] => Raise IndexError
  | artist :: _ =>
      Ok {| track_id := id;
            track_name := Spotify.tr_name t;
            artist_name := Spotify.ar_name artist;
            album_name := Spotify.al_name (Spotify.tr_album t);
            release_date := Spotify.al_release_date (Spotify.tr_album t);
            popularity := Spotify.tr_popularity t |}
  end.

Fixpoint track_dicts (tracks : list Spotify.TrackObject) : result (list Track) :=
  match tracks with
  | [] => Ok []
  | t :: tracks' =>
      (d <- track_dict (Spotify.tr_id t) t ;;
       ds <- track_dicts tracks' ;;
       Ok (d :: ds))%result
  end.

Definition rec_key (r : Rec) : string * string := (rec_track_name r, rec_artist_name r).

Definition pair_eqb (x y : string * string) : bool :=
  String.eqb (fst x) (fst y) && String.eqb (snd x) (snd y).

(** backend.py 168: [pd.concat([...]).drop_duplicates()], duplicates being
    rows with the same track and artist names. *)
Definition combine_recommendations (cluster_recs collab_recs external_recs_df : list Rec)
    : list Rec :=
  drop_duplicates pair_eqb rec_key (cluster_recs ++ collab_recs ++ external_recs_df).

(** backend.py 169 and 171. *)
Definition sample_recommendations (rng : list nat) (combined_recs : list Rec)
    (n_cluster_recs n_collab_recs n_external_recs : Z) : result Recommendations :=
  let sample_size :=
    Z.min (Z.of_nat (length combined_recs))
          (n_cluster_recs + n_collab_recs + n_external_recs) in
  if (sample_size >? 0)%Z
  then (recs <- sample rng sample_size combined_recs ;; Ok (Table recs))%result
  else Ok (Message "No recommendations available.").

Section Globals.

(** The module-level state of backend.py: the authenticated client (line 23),
    the clustered table loaded at import (lines 26-30) and the fitted
    nearest-neighbour model (lines 33-37).  [kneighbors i k] is
    [model.kneighbors([interaction_df.iloc[:, i]], n_neighbors=k)], the
    indices it returns, nearest first. *)
Variable sp : Spotify.Client.
Variable combined_df : DataFrame.
Variable kneighbors : nat -> Z -> result (list nat).

(** [interaction_df.columns] (line 35). *)
Definition interaction_columns : list string := map row_track_id (rows combined_df).

(** backend.py 56-75. *)
Definition recommend_collaborative (track_id : string) (df : DataFrame)
    (n_recommendations : Z) : result (list Rec) :=
  if negb (isin track_id interaction_columns) then Ok []
  else
    match index_of track_id interaction_columns with
    | None => Raise IndexError
    | Some track_index =>
        (indices <- kneighbors track_index (n_recommendations + 1) ;;
         let recommended_indices := tl indices in
         recommended_track_ids <- take interaction_columns recommended_indices ;;
         Ok (map project
               (filter (fun r => isin (row_track_id r) recommended_track_ids) (rows df))))%result
    end.

(** backend.py 77-103: any exception of the call or of the comprehension is
    caught and answered by the empty list. *)
Definition spotify_external_recommendations (seed_tracks seed_artists : option (list string))
    (seed_genres : list string) (limit : Z) : list Track :=
  match (recommendations <- Spotify.recommendations sp seed_tracks seed_artists seed_genres limit ;;
         track_dicts recommendations)%result with
  | Ok tracks => tracks
  | Raise _ => []
  end.

(** backend.py 105-171.  [rng_cluster] and [rng_final] are the draws of the
    two calls of [sample]. *)
Definition hybrid_recommendation (rng_cluster rng_final : list nat)
    (track_id : string) (df : DataFrame)
    (n_cluster_recs n_collab_recs n_external_recs : Z) : IO Recommendations :=
  ((if negb (String.eqb track_id "")
       && negb (isin track_id (map row_track_id (rows combined_df)))
    then
      external_audio_features <- lift (get_audio_features [track_id] sp) ;;
      save_audio_features_to_csv external_audio_features audio_features_dataset ;;
      track_info <- lift (Spotify.track sp track_id) ;;
      track_data <- lift (track_dict track_id track_info) ;;
      save_to_csv [track_data] jpop_dataset ;;
      data_clean
    else ret tt) ;;
   cluster_recs <- lift (recommend_from_cluster rng_cluster track_id df) ;;
   collab_recs <- lift (recommend_collaborative track_id df n_collab_recs) ;;
   let external_recs :=
     spotify_external_recommendations (Some [track_id]) None ["j-pop"] 20 in
   external_recs_df <-
     match external_recs with
     | [] => ret []
     | _ :: _ =>
         let external_track_ids := map (id_column jpop_dataset) external_recs in
         save_to_csv external_recs jpop_dataset ;;
         existing_audio_df <- read_csv audio_features_dataset ;;
         let existing_audio_ids := map af_track_id existing_audio_df in
         let new_track_ids :=
           filter (fun id => negb (isin id existing_audio_ids)) external_track_ids in
         match new_track_ids with
         | [] => ret tt
         | _ :: _ =>
             external_audio_features <- lift (get_audio_features new_track_ids sp) ;;
             save_audio_features_to_csv external_audio_features audio_features_dataset
         end ;;
         data_clean ;;
         ret (from_records external_recs)
     end ;;
   let combined_recs := combine_recommendations cluster_recs collab_recs external_recs_df in
   remove_comma combined_dataset ;;
   lift (sample_recommendations rng_final combined_recs
           n_cluster_recs n_collab_recs n_external_recs))%io.

End Globals.

End Backend.

(** ** Concrete tables and clients *)

Module Examples.

Definition vec (x : float) : AudioVector := tabulate (fun _ => x).

Definition song (id name artist : string) : Track :=
  {| track_id := id; track_name := name; artist_name := artist;
     album_name := "album"; release_date := "2020-01-01"; popularity := 50 |}.

Definition analysis (id : string) (x : float) : AudioFeatures :=
  {| af_track_id := id; af_values := vec x |}.

Definition row (i : nat) (id name artist : string) (x : float) (c : Z) : Row :=
  {| index := i;
     record := {| u_track := song id name artist; u_audio := vec x |};
     cluster := Some c |}.

(** A store whose metadata table repeats track a and holds track b without
    audio features, and whose audio table holds an analysis without track. *)
Definition store0 : Files :=
  {| jpop_dataset_csv :=
       Some [song "a" "Alpha" "x"; song "b" "Beta" "y"; song "a" "Alpha again" "x"];
     audio_features_dataset_csv := Some [analysis "a" 0.5%float; analysis "c" 0.25%float];
     combined_dataset_csv := Some [] |}.

Definition store1 : Files :=
  {| jpop_dataset_csv := Some [song "a" "Alpha" "x"];
     audio_features_dataset_csv := Some [analysis "a" 0.5%float];
     combined_dataset_csv :=
       Some [{| u_track := song "a" "Alpha" "x"; u_audio := vec 0.5%float |}] |}.

(** A sequential mean, and estimators that stand for scikit-learn's. *)
Definition np_mean (l : list float) : float :=
  PrimFloat.div (fold_left PrimFloat.add l 0%float)
                (fold_left (fun n _ => PrimFloat.add n 1%float) l 0%float).

Definition scaler (X : list (list float)) : list (list float) := X.

Definition kmeans (n_clusters : nat) (X : list (list float)) : list Z :=
  map (fun _ => 0%Z) X.



(** Six tracks: five in cluster 0 and one alone in cluster 1. *)
Definition df5 : DataFrame :=
  {| rows :=
       [row 0 "a" "Alpha" "x" 0.5%float 0;
        row 1 "b" "Beta" "x" 0.5%float 0;
        row 2 "c" "Gamma" "x" 0.5%float 0;
        row 3 "d" "Delta" "x" 0.5%float 0;
        row 4 "e" "Epsilon" "x" 0.5%float 0;
        row 5 "f" "Zeta" "y" 0.25%float 1];
     cluster_in_columns := true |}.

(** Twelve tracks in ten clusters: three tracks in cluster 0 and one track
    in each of the clusters 1 to 9. *)
Definition df12 : DataFrame :=
  {| rows :=
       [row 0 "t0" "Song 0" "x" 0.5%float 0;
        row 1 "t1" "Song 1" "x" 0.5%float 0;
        row 2 "t2" "Song 2" "x" 0.5%float 0;
        row 3 "t3" "Song 3" "x" 0.5%float 1;
        row 4 "t4" "Song 4" "x" 0.5%float 2;
        row 5 "t5" "Song 5" "x" 0.5%float 3;
        row 6 "t6" "Song 6" "x" 0.5%float 4;
        row 7 "t7" "Song 7" "x" 0.5%float 5;
        row 8 "t8" "Song 8" "x" 0.5%float 6;
        row 9 "t9" "Song 9" "x" 0.5%float 7;
        row 10 "t10" "Song 10" "x" 0.5%float 8;
        row 11 "t11" "Song 11" "x" 0.5%float 9];
     cluster_in_columns := true |}.

(** A nearest-neighbour model over [n_samples] columns that ranks the query
    column first and the other columns by position; like scikit-learn it
    rejects a number of neighbours that is not positive or exceeds the
    number of columns. *)
Definition kneighbors (n_samples i : nat) (n_neighbors : Z) : result (list nat) :=
  if (n_neighbors <=? 0)%Z || (Z.of_nat n_samples <? n_neighbors)%Z
  then Raise ValueError
  else Ok (firstn (Z.to_nat n_neighbors)
                  (i :: filter (fun j => negb (Nat.eqb j i)) (seq 0 n_samples))).

(** The service knows track a only. *)
Definition lookup0 (id : string) : option Spotify.AudioFeaturesObject :=
  if String.eqb id "a"
  then Some {| Spotify.afo_id := "a"; Spotify.afo_features := vec 0.5%float |}
  else None.

Definition track_object (id name artist : string) : Spotify.TrackObject :=
  {| Spotify.tr_id := id; Spotify.tr_name := name;
     Spotify.tr_artists := [{| Spotify.ar_name := artist |}];
     Spotify.tr_album := {| Spotify.al_name := "album"; Spotify.al_release_date := "2020-01-01" |};
     Spotify.tr_popularity := 50 |}.

(** A client whose recommendation endpoint raises on every call. *)
Definition sp_down : Spotify.Client :=
  {| Spotify.audio_features := fun batch => Ok (map lookup0 batch);
     Spotify.track := fun id => Ok (track_object id "Name" "Artist");
     Spotify.recommendations := fun _ _ _ _ => Raise SpotifyException |}.

End Examples.

(** ** utility.py, the loader of new tracks *)

Module Loader.

Import Pandas Utility.

(** [pd.read_csv(f, skiprows=range(1, n), nrows=n + 1)].  Line 0 of the
    file is the header; the lines 1 to n-1, which hold the first n-1 rows,
    are skipped, and at most n+1 rows are read.  pandas rejects a negative
    [nrows] with ValueError. *)
Definition read_csv_rows {R : Set} (f : filename R) (n : Z) : IO (list R) :=
  fun fs =>
    match contents f fs with
    | None => (Raise FileNotFoundError, fs)
    | Some df =>
        if (n + 1 <? 0)%Z then (Raise ValueError, fs)
        else (Ok (firstn (Z.to_nat (n + 1)) (skipn (Z.to_nat (n - 1)) df)), fs)
    end.

(** utility.py 182-202. *)
Definition append_new (array : list Track) (sp : Spotify.Client) : IO unit :=
  (save_to_csv array jpop_dataset ;;
   df <- read_csv jpop_dataset ;;
   let num_rows := Z.of_nat (length df) in
   let num_ext := Z.of_nat (length array) in
   let n := (num_rows - num_ext)%Z in
   jdf <- read_csv_rows jpop_dataset n ;;
   let track_ids := map track_id jdf in
   audio_features <- lift (get_audio_features track_ids sp) ;;
   save_to_csv audio_features audio_features_dataset ;;
   data_clean)%io.

End Loader.

(** ** app.py *)

Module App.

Import Pandas Utility Backend.

(** The value of the radio button: ['Track'], ['Artist'], or nothing. *)
Inductive InputType : Set := TrackInput | ArtistInput | NoInput.

(** What [rec] returns: the recommendations, the recommendations after a
    line naming the top track used, a message, or nothing. *)
Inductive Output : Set :=
| Recommended (recommendations : Recommendations)
| Using (top_track_name input_text : string) (recommendations : Recommendations)
| Text (message : string)
| NoOutput.

(** The files and the global [combined_df] of app.py, which [rec] assigns. *)
Record State : Set := {
  files : Files;
  combined_df : DataFrame
}.

Definition AppIO (A : Type) : Type := State -> result A * State.

Definition app_ret {A : Type} (a : A) : AppIO A := fun st => (Ok a, st).

Definition app_bind {A B : Type} (m : AppIO A) (k : A -> AppIO B) : AppIO B :=
  fun st =>
    match m st with
    | (Ok a, st') => k a st'
    | (Raise e, st') => (Raise e, st')
    end.

(** A step on the files. *)
Definition on_files {A : Type} (m : IO A) : AppIO A :=
  fun st =>
    let (r, fs) := m (files st) in
    (r, {| files := fs; combined_df := combined_df st |}).

Definition get_combined_df : AppIO DataFrame := fun st => (Ok (combined_df st), st).

Definition set_combined_df (df : DataFrame) : AppIO unit :=
  fun st => (Ok tt, {| files := files st; combined_df := df |}).

Declare Scope app_scope.
Delimit Scope app_scope with app.
Notation "x <- m ;; k" := (app_bind m (fun x => k))
  (at level 61, m at next level, right associativity) : app_scope.
Notation "m ;; k" := (app_bind m (fun _ => k))
  (at level 61, right associativity) : app_scope.

(** The frame [pd.read_csv] returns for the unified table: a fresh index
    and no [cluster] column. *)
Definition read_frame (table : list Unified) : DataFrame :=
  {| rows := map (fun ir => {| index := fst ir; record := snd ir; cluster := None |})
                 (combine (seq 0 (length table)) table);
     cluster_in_columns := false |}.

Section Globals.

(** The client of line 8: [search q type] is the list of the ids of the
    items of [sp.search(q=q, type=type, limit=1)], [artist_top_tracks] the
    list [sp.artist_top_tracks(artist_id, country)['tracks']], and [str e]
    the text of an exception in an f-string. *)
Variable sp : Spotify.Client.
Variable search : string -> string -> result (list string).
Variable artist_top_tracks : string -> string -> result (list Spotify.TrackObject).
Variable str : exn -> string.

(** The module-level state of backend.py, which [hybrid_recommendation]
    reads. *)
Variable backend_sp : Spotify.Client.
Variable backend_combined_df : DataFrame.
Variable kneighbors : nat -> Z -> result (list nat).

(** app.py 20-28: the exception is answered by a message, returned in the
    place of the id. *)
Definition get_track_id_from_name (track_name : string) : option string :=
  match search ("track:" ++ track_name)%string "track" with
  | Ok (id :: _) => Some id
  | Ok [] => None
  | Raise e => Some ("Error fetching track ID: " ++ str e)%string
  end.

(** app.py 30-38. *)
Definition get_artist_id_from_name (artist_name : string) : option string :=
  match search ("artist:" ++ artist_name)%string "artist" with
  | Ok (id :: _) => Some id
  | Ok [] => None
  | Raise e => Some ("Error fetching artist ID: " ++ str e)%string
  end.

(** [if x:] on an id, a message or None. *)
Definition truthy (x : option string) : option string :=
  match x with
  | Some s => if String.eqb s "" then None else Some s
  | None => None
  end.

(** app.py 41-87. *)
Definition rec (rng_cluster rng_final : list nat) (input_text : string)
    (input_type : InputType) : AppIO Output :=
  match input_type with
  | TrackInput =>
      match truthy (get_track_id_from_name input_text) with
      | Some track_id =>
          (df <- get_combined_df ;;
           recommendations <-
             on_files (hybrid_recommendation backend_sp backend_combined_df kneighbors
                         rng_cluster rng_final track_id df 5 5 5) ;;
           app_ret (Recommended recommendations))%app
      | None => app_ret (Text "Track not found on Spotify.")
      end
  | ArtistInput =>
      match truthy (get_artist_id_from_name input_text) with
      | Some artist_id =>
          (top_tracks <- on_files (lift (artist_top_tracks artist_id "US")) ;;
           match top_tracks with
           | top :: _ =>
               let top_track_id := Spotify.tr_id top in
               let top_track_name := Spotify.tr_name top in
               df <- get_combined_df ;;
               (if negb (isin top_track_id (map row_track_id (rows df))) then
                  external_audio_features <-
                    on_files (lift (get_audio_features [top_track_id] sp)) ;;
                  on_files (save_audio_features_to_csv external_audio_features
                              audio_features_dataset) ;;
                  on_files
                    (save_to_csv
                       [{| track_id := top_track_id;
                           track_name := top_track_name;
                           artist_name := input_text;
                           album_name := Spotify.al_name (Spotify.tr_album top);
                           release_date := Spotify.al_release_date (Spotify.tr_album top);
                           popularity := Spotify.tr_popularity top |}]
                       jpop_dataset) ;;
                  on_files data_clean ;;
                  table <- on_files (read_csv combined_dataset) ;;
                  set_combined_df (read_frame table)
                else app_ret tt) ;;
               df <- get_combined_df ;;
               recommendations <-
                 on_files (hybrid_recommendation backend_sp backend_combined_df kneighbors
                             rng_cluster rng_final top_track_id df 5 5 5) ;;
               app_ret (Using top_track_name input_text recommendations)
           | [] => app_ret (Text "No top tracks found for this artist on Spotify.")
           end)%app
      | None => app_ret (Text "Artist not found on Spotify.")
      end
  | NoInput => app_ret NoOutput
  end.

End Globals.

End App.

(** ** Notions used in the statements *)

Module Views.

Import Pandas Utility.

(** The requests [get_audio_features] sends: [track_ids[i:i + 100]] for [i]
    in [range(0, len(track_ids), 100)]. *)
Definition batches (track_ids : list string) : list (list string) :=
  map (fun i => slice i (i + 100) track_ids) (range 0 (length track_ids) 100).

(** The body of the loop of [get_audio_features], on a batch. *)
Definition extend (sp : Spotify.Client) (batch : list string)
    (all_track_features : list AudioFeatures) : result (list AudioFeatures) :=
  bind (Spotify.audio_features sp batch)
    (fun audio_features => Ok (all_track_features ++ non_null_dicts audio_features)).

(** The service answers every batch of [done]. *)
Definition answered (sp : Spotify.Client) (done : list (list string))
    (answers : list (list (option Spotify.AudioFeaturesObject))) : Prop :=
  Forall2 (fun batch answer => Spotify.audio_features sp batch = Ok answer) done answers.

(** What an assignment to [df[features]] leaves untouched in a row. *)
Definition kept (features : list Feature) (r r' : Row) : Prop :=
  index r' = index r /\ u_track (record r') = u_track (record r) /\
  cluster r' = cluster r /\
  forall g, ~ In g features ->
            get_feature g (u_audio (record r')) = get_feature g (u_audio (record r)).

(** [rec] returned recommendations, not a message. *)
Definition recommends (out : App.Output) : bool :=
  match out with
  | App.Recommended _ | App.Using _ _ _ => true
  | App.Text _ | App.NoOutput => false
  end.

(** A run of [m] from a state of [P] ends in a state of [Q] when it returns
    and in a state of [E] when it raises. *)
Definition triple {A : Type} (P : App.State -> Prop) (m : App.AppIO A)
    (Q : A -> App.State -> Prop) (E : App.State -> Prop) : Prop :=
  forall st, P st ->
    match m st with
    | (Ok a, st') => Q a st'
    | (Raise _, st') => E st'
    end.

End Views.

(** ** Further tables and clients *)

Module Scenarios.

Import Examples.

(** The service has an analysis of every track. *)
Definition lookup_all (id : string) : option Spotify.AudioFeaturesObject :=
  Some {| Spotify.afo_id := id; Spotify.afo_features := vec 0.5%float |}.

(** A client that answers every call; it recommends one track. *)
Definition sp_up : Spotify.Client :=
  {| Spotify.audio_features := fun batch => Ok (map lookup_all batch);
     Spotify.track := fun id => Ok (track_object id "Name" "Artist");
     Spotify.recommendations := fun _ _ _ _ => Ok [track_object "r" "Rho" "z"] |}.

(** Two tracks read from the unified file: no [cluster] column yet. *)
Definition df_raw : DataFrame :=
  {| rows :=
       [{| index := 0;
           record := {| u_track := song "a" "Alpha" "x"; u_audio := vec 0.5%float |};
           cluster := None |};
        {| index := 1;
           record := {| u_track := song "b" "Beta" "y";
                        u_audio := set_feature Energy PrimFloat.nan (vec 0.25%float) |};
           cluster := None |}];
     cluster_in_columns := false |}.

(** A search that finds the artist "z" and nothing else, and the top
    tracks of that artist. *)
Definition search (q type : string) : result (list string) :=
  if String.eqb q "artist:Zed" then Ok ["z"] else Ok [].

Definition artist_top_tracks (artist_id country : string)
    : result (list Spotify.TrackObject) :=
  Ok [track_object "g" "Eta" "Zed"].

Definition str (e : exn) : string := "error".

(** The app after start: the files of [store1] and the clustered table. *)
Definition app0 : App.State := {| App.files := store1; App.combined_df := df5 |}.

End Scenarios.

(** * Properties *)

(** ** Sampling and duplicate removal *)

Module PandasFacts.

Import Pandas.

Lemma remove_nth_cons (A : Type) (i : nat) (x : A) (l : list A) :
  remove_nth (S i) (x :: l) = x :: remove_nth i l.
Proof. reflexivity. Qed.

Lemma remove_nth_perm (A : Type) (i : nat) (l : list A) (d : A) :
  (i < length l)%nat -> Permutation (nth i l d :: remove_nth i l) l.
Proof.
  revert l; induction i as [|i IH]; intros [|x l] Hi; simpl in Hi; try lia.
  - reflexivity.
  - rewrite remove_nth_cons; simpl nth.
    etransitivity; [apply perm_swap|].
    apply perm_skip, IH; lia.
Qed.

Lemma remove_nth_length (A : Type) (i : nat) (l : list A) :
  (i < length l)%nat -> length (remove_nth i l) = Nat.pred (length l).
Proof.
  intros Hi.
  destruct l as [|x l]; [simpl in Hi; lia|].
  pose proof (Permutation_length (remove_nth_perm (x :: l) x Hi)) as H.
  simpl in H. simpl. lia.
Qed.

Lemma draw_in_range (A : Type) (r : nat) (x : A) (l : list A) :
  (Nat.modulo r (length (x :: l)) < length (x :: l))%nat.
Proof. apply Nat.mod_upper_bound; simpl; lia. Qed.

(** [n] draws yield [n] rows, or the whole population if it is smaller. *)
Lemma choice_length (A : Type) (n : nat) :
  forall (rng : list nat) (pop : list A),
    length (choice rng n pop) = Nat.min n (length pop).
Proof.
  induction n as [|n IH]; intros rng [|x pop]; try reflexivity.
  cbn [choice]. cbn [length]. rewrite IH.
  rewrite remove_nth_length by apply draw_in_range.
  simpl. reflexivity.
Qed.

(** Drawing is without replacement: what is drawn, together with what is
    left, is the population. *)
Lemma choice_without_replacement (A : Type) (n : nat) :
  forall (rng : list nat) (pop : list A),
    exists rest, Permutation (choice rng n pop ++ rest) pop.
Proof.
  induction n as [|n IH]; intros rng [|x pop].
  - exists []; reflexivity.
  - exists (x :: pop); reflexivity.
  - exists []; reflexivity.
  - cbn [choice].
    destruct (IH (tl rng) (remove_nth (Nat.modulo (hd 0%nat rng) (length (x :: pop))) (x :: pop)))
      as [rest Hrest].
    exists rest. cbn [app].
    etransitivity; [apply perm_skip, Hrest|].
    apply remove_nth_perm, draw_in_range.
Qed.

(** Drawing as many rows as there are returns all of them, reordered. *)
Lemma choice_all (A : Type) (rng : list nat) (n : nat) (pop : list A) :
  (length pop <= n)%nat -> Permutation (choice rng n pop) pop.
Proof.
  intros Hn.
  destruct (choice_without_replacement n rng pop) as [rest Hrest].
  pose proof (Permutation_length Hrest) as Hlen.
  rewrite length_app, choice_length in Hlen.
  destruct rest as [|y rest]; [|simpl in Hlen; lia].
  rewrite app_nil_r in Hrest. exact Hrest.
Qed.

(** The list of draws restricts nothing: every selection without
    replacement is what some draws produce. *)
Lemma choice_reaches (A : Type) (out : list A) :
  forall pop rest, Permutation (out ++ rest) pop ->
    exists rng, choice rng (length out) pop = out.
Proof.
  induction out as [|x out IH]; intros pop rest Hperm.
  - exists []. now destruct pop.
  - assert (In x pop) as Hin by (eapply Permutation_in; [exact Hperm|now left]).
    destruct (In_nth pop x x Hin) as (i & Hi & Hx).
    assert (Permutation (out ++ rest) (remove_nth i pop)) as Hrest.
    { apply Permutation_cons_inv with (a := x).
      etransitivity; [exact Hperm|].
      symmetry. rewrite <- Hx at 1. now apply remove_nth_perm. }
    destruct (IH _ _ Hrest) as [rng Hrng].
    exists (i :: rng). destruct pop as [|y pop]; [destruct Hin|].
    cbn [choice length hd tl] in *. rewrite Nat.mod_small by exact Hi.
    rewrite Hrng. f_equal. rewrite nth_indep with (d' := x) by exact Hi. exact Hx.
Qed.

Lemma sample_ok (A : Type) (rng : list nat) (n : Z) (df : list A) :
  (0 <= n <= Z.of_nat (length df))%Z ->
  sample rng n df = Ok (choice rng (Z.to_nat n) df).
Proof.
  intros [H0 Hn]. unfold sample.
  destruct (Z.ltb_spec n 0); [lia|].
  destruct (Z.ltb_spec (Z.of_nat (length df)) n); [lia|].
  reflexivity.
Qed.

Lemma sample_too_large (A : Type) (rng : list nat) (n : Z) (df : list A) :
  (Z.of_nat (length df) < n)%Z -> sample rng n df = Raise ValueError.
Proof.
  intros Hn. unfold sample.
  destruct (Z.ltb_spec n 0); [reflexivity|].
  destruct (Z.ltb_spec (Z.of_nat (length df)) n); [reflexivity|lia].
Qed.

Lemma sample_inv (A : Type) (rng : list nat) (n : Z) (df out : list A) :
  sample rng n df = Ok out ->
  (0 <= n <= Z.of_nat (length df))%Z /\ out = choice rng (Z.to_nat n) df.
Proof.
  unfold sample.
  destruct (Z.ltb_spec n 0); [discriminate|].
  destruct (Z.ltb_spec (Z.of_nat (length df)) n); [discriminate|].
  intros [= <-]. split; [lia|reflexivity].
Qed.

Section DropDuplicates.

Variables (A K : Type) (eqb : K -> K -> bool) (key : A -> K).
Hypothesis eqb_eq : forall x y, eqb x y = true <-> x = y.

Lemma existsb_eqb_In (k : K) (s : list K) : existsb (eqb k) s = true <-> In k s.
Proof.
  rewrite existsb_exists. split.
  - intros (y & Hy & E). apply eqb_eq in E. now subst.
  - intros H. exists k. split; [exact H|now apply eqb_eq].
Qed.

Lemma existsb_eqb_ext (k : K) (s s' : list K) :
  (forall x, In x s <-> In x s') -> existsb (eqb k) s = existsb (eqb k) s'.
Proof.
  intros H. apply eq_true_iff_eq. rewrite !existsb_eqb_In. apply H.
Qed.

(** Only the set of keys already seen matters. *)
Lemma drop_duplicates_from_ext (df : list A) :
  forall s s', (forall x, In x s <-> In x s') ->
    drop_duplicates_from eqb key s df = drop_duplicates_from eqb key s' df.
Proof.
  induction df as [|r df IH]; intros s s' H; simpl; [reflexivity|].
  rewrite existsb_eqb_ext with (s' := s') by exact H.
  destruct (existsb (eqb (key r)) s').
  - now apply IH.
  - f_equal. apply IH. intros x; simpl. now rewrite H.
Qed.

Lemma drop_duplicates_from_In (df : list A) :
  forall s r, In r (drop_duplicates_from eqb key s df) -> In r df /\ ~ In (key r) s.
Proof.
  induction df as [|x df IH]; intros s r; simpl; [tauto|].
  destruct (existsb (eqb (key x)) s) eqn:E.
  - intros H. apply IH in H. tauto.
  - intros [<-|H].
    + split; [now left|]. rewrite <- existsb_eqb_In, E. discriminate.
    + apply IH in H. simpl in H. tauto.
Qed.

(** The keys that survive: those of the table that were not seen before. *)
Lemma drop_duplicates_from_keys (df : list A) :
  forall s k, In k (map key (drop_duplicates_from eqb key s df)) <->
              In k (map key df) /\ ~ In k s.
Proof.
  induction df as [|x df IH]; intros s k; simpl; [tauto|].
  destruct (existsb (eqb (key x)) s) eqn:E.
  - rewrite IH. apply existsb_eqb_In in E. split; [tauto|].
    intros [[<-|H] Hs]; tauto.
  - simpl. rewrite IH. simpl.
    assert (~ In (key x) s) by (rewrite <- existsb_eqb_In, E; discriminate).
    split.
    + intros [<-|[H1 H2]]; tauto.
    + intros [[<-|H1] H2]; [now left|].
      destruct (eqb (key x) k) eqn:Ek.
      * apply eqb_eq in Ek. now left.
      * right. split; [exact H1|].
        intros [Hx|Hs]; [|tauto].
        apply eqb_eq in Hx. congruence.
Qed.

Lemma drop_duplicates_from_NoDup (df : list A) :
  forall s, NoDup (map key (drop_duplicates_from eqb key s df)).
Proof.
  induction df as [|x df IH]; intros s; simpl; [constructor|].
  destruct (existsb (eqb (key x)) s); [apply IH|].
  simpl. constructor; [|apply IH].
  rewrite drop_duplicates_from_keys. simpl. tauto.
Qed.

(** A table whose keys are distinct and unseen is left as it is. *)
Lemma drop_duplicates_from_fixed (df : list A) :
  forall s, NoDup (map key df) -> (forall k, In k (map key df) -> ~ In k s) ->
    drop_duplicates_from eqb key s df = df.
Proof.
  induction df as [|x df IH]; intros s Hnd Hs; simpl; [reflexivity|].
  simpl in Hnd. apply NoDup_cons_iff in Hnd as [Hx Hnd].
  destruct (existsb (eqb (key x)) s) eqn:E.
  - apply existsb_eqb_In in E. exfalso. apply (Hs (key x)); simpl; tauto.
  - f_equal. apply IH; [exact Hnd|].
    intros k Hk [<-|Hin]; [tauto|].
    apply (Hs k); simpl; tauto.
Qed.

Lemma drop_duplicates_NoDup (df : list A) :
  NoDup (map key (drop_duplicates eqb key df)).
Proof. apply drop_duplicates_from_NoDup. Qed.

Lemma drop_duplicates_keys (df : list A) (k : K) :
  In k (map key (drop_duplicates eqb key df)) <-> In k (map key df).
Proof. unfold drop_duplicates. rewrite drop_duplicates_from_keys. simpl. tauto. Qed.

Lemma drop_duplicates_fixed (df : list A) :
  NoDup (map key df) -> drop_duplicates eqb key df = df.
Proof. intros H. apply drop_duplicates_from_fixed; [exact H|]. intros k _ []. Qed.

Lemma drop_duplicates_idempotent (df : list A) :
  drop_duplicates eqb key (drop_duplicates eqb key df) = drop_duplicates eqb key df.
Proof. apply drop_duplicates_fixed, drop_duplicates_NoDup. Qed.

(** Rows whose key was seen are the ones a later filter would remove. *)
Lemma drop_duplicates_from_seen (df : list A) :
  forall s t,
    drop_duplicates_from eqb key (s ++ t) df =
    filter (fun r => negb (existsb (eqb (key r)) s)) (drop_duplicates_from eqb key t df).
Proof.
  induction df as [|x df IH]; intros s t; simpl; [reflexivity|].
  rewrite existsb_app.
  destruct (existsb (eqb (key x)) t) eqn:Et.
  - rewrite orb_true_r. apply IH.
  - rewrite orb_false_r. simpl.
    destruct (existsb (eqb (key x)) s) eqn:Es; simpl.
    + rewrite <- IH. apply drop_duplicates_from_ext.
      intros k. rewrite !in_app_iff. simpl.
      apply existsb_eqb_In in Es. split; [tauto|].
      intros [H|[<-|H]]; tauto.
    + f_equal. rewrite <- IH. apply drop_duplicates_from_ext.
      intros k. simpl. rewrite !in_app_iff. simpl. tauto.
Qed.

Lemma drop_duplicates_from_app (a : list A) :
  forall s b,
    drop_duplicates_from eqb key s (a ++ b) =
    drop_duplicates_from eqb key s a ++ drop_duplicates_from eqb key (map key a ++ s) b.
Proof.
  induction a as [|x a IH]; intros s b; simpl; [reflexivity|].
  destruct (existsb (eqb (key x)) s) eqn:E.
  - rewrite IH. f_equal. apply drop_duplicates_from_ext.
    intros k. simpl. rewrite !in_app_iff.
    apply existsb_eqb_In in E. split; [tauto|].
    intros [<-|H]; tauto.
  - simpl. f_equal. rewrite IH. f_equal. apply drop_duplicates_from_ext.
    intros k. simpl. rewrite !in_app_iff. simpl. tauto.
Qed.

(** Appending to a table and dropping duplicates keeps the first table's
    rows and adds the rows of the second whose key is new. *)
Lemma drop_duplicates_app (a b : list A) :
  drop_duplicates eqb key (a ++ b) =
  drop_duplicates eqb key a ++
  filter (fun r => negb (existsb (eqb (key r)) (map key a))) (drop_duplicates eqb key b).
Proof.
  unfold drop_duplicates. rewrite drop_duplicates_from_app.
  f_equal. apply drop_duplicates_from_seen.
Qed.

(** The first row found under a key is the one found before. *)
Lemma find_drop_duplicates_from (df : list A) (k : K) :
  forall s, ~ In k s ->
    find (fun r => eqb (key r) k) (drop_duplicates_from eqb key s df) =
    find (fun r => eqb (key r) k) df.
Proof.
  induction df as [|x df IH]; intros s Hk; simpl; [reflexivity|].
  destruct (existsb (eqb (key x)) s) eqn:E.
  - apply existsb_eqb_In in E.
    destruct (eqb (key x) k) eqn:Ek.
    + apply eqb_eq in Ek. congruence.
    + now apply IH.
  - simpl. destruct (eqb (key x) k) eqn:Ek; [reflexivity|].
    apply IH. intros [Hx|Hs]; [|tauto].
    apply eqb_eq in Hx. congruence.
Qed.

Lemma find_drop_duplicates (df : list A) (k : K) :
  find (fun r => eqb (key r) k) (drop_duplicates eqb key df) =
  find (fun r => eqb (key r) k) df.
Proof. apply find_drop_duplicates_from. intros []. Qed.


End DropDuplicates.

End PandasFacts.

(** ** Trailing commas *)

Module CsvFacts.

Import Csv.

Lemma rstrip_prefix (fields : line) :
  exists k, fields = rstrip fields ++ repeat "" k.
Proof.
  induction fields as [|f fields [k IH]]; simpl; [now exists O|].
  destruct (rstrip fields) as [|g rest].
  - destruct (String.eqb_spec f "") as [->|Hf].
    + exists (S k). simpl in *. now rewrite IH.
    + exists k. simpl in *. now rewrite IH.
  - exists k. simpl in *. now rewrite IH at 1.
Qed.

Lemma rstrip_first (f : string) (fields : line) :
  f <> "" -> rstrip (f :: fields) <> [].
Proof.
  intros Hf. simpl. destruct (rstrip fields); [|discriminate].
  destruct (String.eqb_spec f ""); [contradiction|discriminate].
Qed.

(** A row with a non-empty first field (its track_id) is read back as it
    was written, once its trailing commas are stripped. *)
Lemma rstrip_read_back (width : nat) (f : string) (fields : line) :
  f <> "" -> length (f :: fields) = width ->
  read_line width (rstrip (f :: fields)) = [f :: fields].
Proof.
  intros Hf Hw. pose proof (rstrip_first fields Hf) as Hne.
  destruct (rstrip_prefix (f :: fields)) as [k E].
  destruct (rstrip (f :: fields)) as [|g rest] eqn:Er; [contradiction|].
  assert (width - length (g :: rest) = k)%nat as Hk.
  { apply (f_equal (@length string)) in E.
    rewrite length_app, repeat_length in E. lia. }
  unfold read_line. now rewrite Hk, <- E.
Qed.

(** [remove_comma] leaves the table pandas reads from the file as it is. *)
Lemma remove_comma_read_back (width : nat) (rows : list line) :
  Forall (fun row => hd "" row <> "" /\ length row = width) rows ->
  read_lines width (remove_comma rows) = rows.
Proof.
  induction 1 as [|row rows [Hf Hw] _ IH]; [reflexivity|].
  unfold read_lines, remove_comma in *. simpl.
  destruct row as [|f fields]; [now simpl in Hf|].
  rewrite rstrip_read_back, IH by assumption. reflexivity.
Qed.

End CsvFacts.

(** ** The feature store *)

Module UtilityFacts.

Import Pandas Utility PandasFacts.

Lemma isin_In (x : string) (values : list string) : isin x values = true <-> In x values.
Proof. apply existsb_eqb_In, String.eqb_eq. Qed.

Lemma isin_false (x : string) (values : list string) :
  isin x values = false <-> ~ In x values.
Proof. rewrite <- isin_In. destruct (isin x values); split; congruence. Qed.

Lemma intersection_In (x : string) (xs ys : list string) :
  In x (intersection xs ys) <-> In x xs /\ In x ys.
Proof. unfold intersection. now rewrite filter_In, isin_In. Qed.

Lemma filter_id (A : Type) (p : A -> bool) (l : list A) :
  (forall x, In x l -> p x = true) -> filter p l = l.
Proof.
  induction l as [|x l IH]; simpl; intros H; [reflexivity|].
  rewrite (H x) by now left. f_equal. apply IH. intros y Hy. apply H. now right.
Qed.

Lemma filter_keys (A : Type) (key : A -> string) (p : string -> bool) (l : list A) (k : string) :
  In k (map key (filter (fun r => p (key r)) l)) <-> In k (map key l) /\ p k = true.
Proof.
  rewrite !in_map_iff. split.
  - intros (r & <- & Hr). apply filter_In in Hr as [Hr Hp]. split; [now exists r|exact Hp].
  - intros [(r & <- & Hr) Hp]. exists r. split; [reflexivity|]. now apply filter_In.
Qed.

(** Duplicate removal on the [track_id] column. *)
Section ByTrackId.

Variables (A : Type) (key : A -> string).

Lemma dd_keys (df : list A) (k : string) :
  In k (map key (drop_duplicates String.eqb key df)) <-> In k (map key df).
Proof. apply drop_duplicates_keys, String.eqb_eq. Qed.


Lemma dd_fixed (df : list A) :
  NoDup (map key df) -> drop_duplicates String.eqb key df = df.
Proof. apply drop_duplicates_fixed, String.eqb_eq. Qed.

Lemma dd_app (a b : list A) :
  drop_duplicates String.eqb key (a ++ b) =
  drop_duplicates String.eqb key a ++
  filter (fun r => negb (isin (key r) (map key a))) (drop_duplicates String.eqb key b).
Proof. apply drop_duplicates_app, String.eqb_eq. Qed.

Lemma dd_find (df : list A) (k : string) :
  find (fun r => String.eqb (key r) k) (drop_duplicates String.eqb key df) =
  find (fun r => String.eqb (key r) k) df.
Proof. apply find_drop_duplicates, String.eqb_eq. Qed.


End ByTrackId.

(** What one run of [data_clean] computes from the two source tables. *)
Lemma data_clean_run (fs : Files) (j : list Track) (a : list AudioFeatures) (c : list Unified) :
  jpop_dataset_csv fs = Some j ->
  audio_features_dataset_csv fs = Some a ->
  combined_dataset_csv fs = Some c ->
  let jpop_df := drop_duplicates String.eqb track_id j in
  let audio_df := drop_duplicates String.eqb af_track_id a in
  let common := intersection (map track_id jpop_df) (map af_track_id audio_df) in
  let jf := filter (fun r => isin (track_id r) common) jpop_df in
  let af := filter (fun r => isin (af_track_id r) common) audio_df in
  data_clean fs =
  (Ok tt, {| jpop_dataset_csv := Some jf;
             audio_features_dataset_csv := Some af;
             combined_dataset_csv := Some (merge jf af) |}).
Proof.
  intros Hj Ha Hc. unfold data_clean, io_bind, read_csv, to_csv, remove_comma.
  simpl. rewrite Hj, Ha. simpl. rewrite Hc. reflexivity.
Qed.

(** [data_clean] returns only when the three files exist. *)
Lemma data_clean_returns (fs fs' : Files) :
  data_clean fs = (Ok tt, fs') ->
  exists j a c, jpop_dataset_csv fs = Some j /\
                audio_features_dataset_csv fs = Some a /\
                combined_dataset_csv fs = Some c.
Proof.
  unfold data_clean, io_bind, read_csv, to_csv, remove_comma. simpl.
  destruct (jpop_dataset_csv fs) as [j|]; [|discriminate].
  destruct (audio_features_dataset_csv fs) as [a|]; [|discriminate].
  simpl.
  destruct (combined_dataset_csv fs) as [c|]; [|discriminate].
  intros _. now exists j, a, c.
Qed.

Section CleanTables.

Variables (j : list Track) (a : list AudioFeatures).

Let jpop_df := drop_duplicates String.eqb track_id j.
Let audio_df := drop_duplicates String.eqb af_track_id a.
Let common := intersection (map track_id jpop_df) (map af_track_id audio_df).
Let jf := filter (fun r => isin (track_id r) common) jpop_df.
Let af := filter (fun r => isin (af_track_id r) common) audio_df.

Lemma common_In (k : string) :
  In k common <-> In k (map track_id j) /\ In k (map af_track_id a).
Proof.
  unfold common. rewrite intersection_In.
  unfold jpop_df, audio_df.
  now rewrite !dd_keys.
Qed.

Lemma clean_jpop_ids (k : string) : In k (map track_id jf) <-> In k common.
Proof.
  unfold jf. rewrite (filter_keys track_id (fun x => isin x common)).
  rewrite isin_In. split; [tauto|]. intros H. split; [|exact H].
  unfold common in H. apply intersection_In in H. tauto.
Qed.

Lemma clean_audio_ids (k : string) : In k (map af_track_id af) <-> In k common.
Proof.
  unfold af. rewrite (filter_keys af_track_id (fun x => isin x common)).
  rewrite isin_In. split; [tauto|]. intros H. split; [|exact H].
  unfold common in H. apply intersection_In in H. tauto.
Qed.




End CleanTables.

Lemma merge_ids (jf : list Track) (af : list AudioFeatures) (k : string) :
  In k (map (id_column combined_dataset) (merge jf af)) <->
  In k (map track_id jf) /\ In k (map af_track_id af).
Proof.
  unfold merge. simpl id_column. rewrite !in_map_iff. split.
  - intros (u & <- & Hu). apply in_flat_map in Hu as (t & Ht & Hu).
    apply in_map_iff in Hu as (x & <- & Hx). apply filter_In in Hx as [Hx E].
    apply String.eqb_eq in E. simpl. split; [now exists t|now exists x].
  - intros [(t & <- & Ht) (x & E & Hx)].
    exists {| u_track := t; u_audio := af_values x |}. split; [reflexivity|].
    apply in_flat_map. exists t. split; [exact Ht|].
    apply in_map_iff. exists x. split; [reflexivity|].
    apply filter_In. split; [exact Hx|now apply String.eqb_eq].
Qed.

(** After [data_clean] the metadata table, the audio-feature table and the
    unified table hold the same ids: those the two source tables shared. *)
Lemma data_clean_ids (fs fs' : Files) (k : string) :
  data_clean fs = (Ok tt, fs') ->
  let shared := In k (ids jpop_dataset fs) /\ In k (ids audio_features_dataset fs) in
  (In k (ids jpop_dataset fs') <-> shared) /\
  (In k (ids audio_features_dataset fs') <-> shared) /\
  (In k (ids combined_dataset fs') <-> shared).
Proof.
  intros H. destruct (data_clean_returns _ H) as (j & a & c & Hj & Ha & Hc).
  rewrite (data_clean_run _ Hj Ha Hc) in H. injection H as <-.
  unfold ids. simpl contents. rewrite Hj, Ha. cbv zeta. simpl id_column.
  rewrite merge_ids, clean_jpop_ids, clean_audio_ids, common_In. tauto.
Qed.

Lemma find_app_some (A : Type) (p : A -> bool) (l l' : list A) (x : A) :
  find p l = Some x -> find p (l ++ l') = Some x.
Proof.
  induction l as [|y l IH]; simpl; [discriminate|].
  destruct (p y); [trivial|exact IH].
Qed.

Lemma find_key_some (A : Type) (key : A -> string) (l : list A) (k : string) :
  In k (map key l) -> exists r, find (fun r => String.eqb (key r) k) l = Some r.
Proof.
  induction l as [|y l IH]; simpl; [tauto|].
  intros [E|H].
  - exists y. apply String.eqb_eq in E. now rewrite E.
  - destruct (String.eqb (key y) k); [now exists y|now apply IH].
Qed.

(** What [save_to_csv] writes. *)
Lemma save_to_csv_run (R : Set) (tracks : list R) (f : filename R) (fs : Files) :
  let existing := match contents f fs with Some df => df | None => [] end in
  save_to_csv tracks f fs =
  (Ok tt,
   write f (drop_duplicates String.eqb (id_column f) existing ++
            filter (fun r => negb (isin (id_column f r) (map (id_column f) existing)))
                   (drop_duplicates String.eqb (id_column f) tracks)) fs).
Proof.
  cbv zeta. unfold save_to_csv, io_bind, load_dataset, to_csv.
  now rewrite dd_app, drop_duplicates_idempotent by apply String.eqb_eq.
Qed.

Lemma contents_write_same (R : Set) (f : filename R) (df : list R) (fs : Files) :
  contents f (write f df fs) = Some df.
Proof. destruct f; reflexivity. Qed.

Lemma ids_write_same (R : Set) (f : filename R) (df : list R) (fs : Files) :
  ids f (write f df fs) = map (id_column f) df.
Proof. unfold ids. now rewrite contents_write_same. Qed.

(** [save_to_csv] removes no id from the table it appends to. *)
Lemma save_to_csv_keeps_ids (R : Set) (tracks : list R) (f : filename R) (fs : Files)
    (k : string) :
  In k (ids f fs) -> In k (ids f (snd (save_to_csv tracks f fs))).
Proof.
  rewrite save_to_csv_run. cbv zeta. simpl snd. rewrite ids_write_same.
  unfold ids. destruct (contents f fs) as [df|]; [|intros []].
  intros H. rewrite map_app, in_app_iff. left. now apply dd_keys.
Qed.

(** What [save_audio_features_to_csv] leaves in an existing file. *)
Lemma save_audio_features_to_csv_run (audio_features existing : list AudioFeatures)
    (fs : Files) :
  audio_features_dataset_csv fs = Some existing ->
  save_audio_features_to_csv audio_features audio_features_dataset fs =
  (Ok tt,
   write audio_features_dataset
     (existing ++
      filter (fun r => negb (isin (af_track_id r) (map af_track_id existing))) audio_features)
     fs).
Proof.
  intros H. unfold save_audio_features_to_csv, io_bind, load_dataset, to_csv, ret.
  unfold contents, id_column. rewrite H.
  destruct (filter _ audio_features) as [|x new] eqn:E; [|reflexivity].
  rewrite app_nil_r. destruct fs; simpl in *. now subst.
Qed.

(** *** Batched retrieval of audio features *)

Lemma firstn_plus (A : Type) (n m : nat) (l : list A) :
  firstn (n + m) l = firstn n l ++ firstn m (skipn n l).
Proof.
  revert l; induction n as [|n IH]; intros [|x l]; simpl; try reflexivity.
  - now rewrite firstn_nil.
  - now rewrite IH.
Qed.

Lemma slice_step (A : Type) (i step : nat) (l : list A) :
  slice i (i + step) l = firstn step (skipn i l).
Proof. unfold slice. f_equal. lia. Qed.

(** The slices taken at the indices of [range] tile the list. *)
Lemma slices_concat (A : Type) (step : nat) (l : list A) (count : nat) :
  forall start,
    concat (map (fun i => slice i (i + step) l) (range_from count start step)) =
    firstn (count * step) (skipn start l).
Proof.
  induction count as [|count IH]; intros start; simpl; [reflexivity|].
  rewrite IH, slice_step, firstn_plus, skipn_skipn.
  do 3 f_equal. lia.
Qed.

Lemma range_covers (n : nat) : (n <= (n - 0 + (100 - 1)) / 100 * 100)%nat.
Proof.
  pose proof (Nat.div_mod_eq (n - 0 + (100 - 1)) 100) as E.
  pose proof (Nat.mod_upper_bound (n - 0 + (100 - 1)) 100) as U.
  lia.
Qed.

Lemma batches_concat (A : Type) (l : list A) :
  concat (map (fun i => slice i (i + 100) l) (range 0 (length l) 100)) = l.
Proof.
  unfold range. rewrite slices_concat. simpl skipn.
  apply firstn_all2, range_covers.
Qed.

Lemma non_null_dicts_app (l l' : list (option Spotify.AudioFeaturesObject)) :
  non_null_dicts (l ++ l') = non_null_dicts l ++ non_null_dicts l'.
Proof. apply flat_map_app. Qed.

Section AudioFeaturesService.

(** A client whose audio-features endpoint answers every batch, id by id. *)
Variable sp : Spotify.Client.
Variable lookup : string -> option Spotify.AudioFeaturesObject.
Hypothesis answers : forall batch, Spotify.audio_features sp batch = Ok (map lookup batch).

Lemma get_audio_features_loop (track_ids : list string) (starts : list nat) :
  forall acc,
    for_each starts
      (fun i all_track_features =>
         bind (Spotify.audio_features sp (slice i (i + 100) track_ids))
           (fun audio_features => Ok (all_track_features ++ non_null_dicts audio_features)))
      acc =
    Ok (acc ++ non_null_dicts
                 (map lookup (concat (map (fun i => slice i (i + 100) track_ids) starts)))).
Proof.
  induction starts as [|i starts IH]; intros acc; simpl.
  - now rewrite app_nil_r.
  - rewrite answers. simpl. rewrite IH, map_app, non_null_dicts_app, app_assoc.
    reflexivity.
Qed.

(** Batching is transparent: one dictionary per non-null answer, in the
    order of the ids. *)
Lemma get_audio_features_returns (track_ids : list string) :
  get_audio_features track_ids sp = Ok (non_null_dicts (map lookup track_ids)).
Proof.
  unfold get_audio_features. rewrite get_audio_features_loop.
  now rewrite batches_concat.
Qed.

End AudioFeaturesService.

(** Every id contributes one dictionary or is a null answer. *)
Lemma non_null_dicts_length (lookup : string -> option Spotify.AudioFeaturesObject)
    (track_ids : list string) :
  (length (non_null_dicts (map lookup track_ids)) +
   length (filter (is_null lookup) track_ids) = length track_ids)%nat.
Proof.
  induction track_ids as [|id track_ids IH]; simpl; [reflexivity|].
  unfold is_null at 1. destruct (lookup id); simpl; rewrite ?length_app; simpl; lia.
Qed.

(** *** Clustering *)

Lemma Feature_eqb_eq (f g : Feature) : Feature_eqb f g = true <-> f = g.
Proof. destruct f, g; simpl; split; congruence. Qed.

Lemma mem_feature_In (g : Feature) (features : list Feature) :
  mem_feature g features = true <-> In g features.
Proof. apply existsb_eqb_In, Feature_eqb_eq. Qed.

Lemma get_feature_tabulate (g : Feature) (v : Feature -> float) :
  get_feature g (tabulate v) = v g.
Proof. destruct g; reflexivity. Qed.




Section Imputation.

Variable mean : list float -> float.

Lemma impute_returns (features : list Feature) (df imputed : list Row) :
  impute mean features df = Ok imputed ->
  imputed =
  map (fun r => with_audio r (tabulate (fun g => imputed_cell mean features df g r))) df.
Proof.
  unfold impute.
  destruct df as [|r0 df]; [discriminate|].
  destruct features as [|f0 features]; [discriminate|].
  destruct (existsb _ (f0 :: features)); [discriminate|].
  now intros [= <-].
Qed.

Lemma impute_raises (features : list Feature) (df : list Row) (e : exn) :
  impute mean features df = Raise e ->
  e = ValueError /\
  (df = [] \/ features = [] \/
   exists f, In f features /\ observed (column f df) = []).
Proof.
  unfold impute.
  destruct df as [|r0 df]; [intros [= <-]; tauto|].
  destruct features as [|f0 features]; [intros [= <-]; tauto|].
  destruct (existsb _ (f0 :: features)) eqn:E; [|discriminate].
  intros [= <-]. split; [reflexivity|]. right; right.
  apply existsb_exists in E as (f & Hf & E).
  exists f. split; [exact Hf|].
  destruct (observed (column f (r0 :: df))); [reflexivity|discriminate].
Qed.

(** The imputer returns on a table with a row, a feature and an observed
    value in every feature column. *)
Lemma impute_total (features : list Feature) (df : list Row) :
  df <> [] -> features <> [] ->
  (forall f, In f features -> observed (column f df) <> []) ->
  exists imputed, impute mean features df = Ok imputed.
Proof.
  intros Hdf Hfeatures Hobs.
  destruct (impute mean features df) as [imputed|e] eqn:E; [now exists imputed|].
  apply impute_raises in E as [_ [H|[H|(f & Hf & H)]]]; try contradiction.
  now apply Hobs in Hf.
Qed.


Lemma imputed_cell_other (features : list Feature) (df : list Row) (g : Feature) (r : Row) :
  ~ In g features ->
  imputed_cell mean features df g r = get_feature g (u_audio (record r)).
Proof.
  unfold imputed_cell. intros H.
  destruct (mem_feature g features) eqn:E; [|reflexivity].
  now apply mem_feature_In in E.
Qed.


End Imputation.

(** *** Idempotence of the join *)



(** *** Appends *)

Lemma save_to_csv_ids (R : Set) (tracks : list R) (f : filename R) (fs : Files) (k : string) :
  In k (ids f (snd (save_to_csv tracks f fs))) <->
  In k (ids f fs) \/ In k (map (id_column f) tracks).
Proof.
  rewrite save_to_csv_run. cbv zeta. simpl snd. rewrite ids_write_same.
  rewrite map_app, in_app_iff, dd_keys.
  rewrite (filter_keys (id_column f) (fun x => negb (isin x _))).
  rewrite dd_keys, negb_true_iff, isin_false.
  unfold ids. destruct (contents f fs) as [df|]; simpl.
  - destruct (isin k (map (id_column f) df)) eqn:E.
    + apply isin_In in E. tauto.
    + apply isin_false in E. tauto.
  - tauto.
Qed.

(** C9: appends discard what is already known.  [save_to_csv] writes the
    existing rows (the first row of each track_id, untouched) followed by the
    incoming rows whose track_id the file did not hold, so the row found
    under an existing track_id is the row that was there;
    [save_audio_features_to_csv] leaves the existing rows as they are and
    appends the incoming records whose track_id the file did not hold. *)
Theorem appends_discard_known_track_ids :
  (forall (R : Set) (f : filename R) (tracks : list R) (fs : Files),
     let existing := match contents f fs with Some df => df | None => [] end in
     let kept := drop_duplicates String.eqb (id_column f) existing in
     let appended :=
       filter (fun r => negb (isin (id_column f r) (map (id_column f) existing)))
              (drop_duplicates String.eqb (id_column f) tracks) in
     save_to_csv tracks f fs = (Ok tt, write f (kept ++ appended) fs) /\
     (forall k, In k (map (id_column f) existing) ->
        find (fun r => String.eqb (id_column f r) k) (kept ++ appended) =
        find (fun r => String.eqb (id_column f r) k) existing))
  /\
  (forall (audio_features existing : list AudioFeatures) (fs : Files),
     let appended :=
       filter (fun r => negb (isin (af_track_id r) (map af_track_id existing)))
              audio_features in
     save_audio_features_to_csv audio_features audio_features_dataset
       (write audio_features_dataset existing fs) =
     (Ok tt, write audio_features_dataset (existing ++ appended) fs)).
Proof.
  split.
  - intros R f tracks fs existing kept appended. split.
    + apply save_to_csv_run.
    + intros k Hk.
      destruct (find_key_some (id_column f) existing k Hk) as [r Hr].
      rewrite Hr. apply find_app_some. unfold kept. now rewrite dd_find.
  - intros audio_features existing fs appended.
    now rewrite (save_audio_features_to_csv_run audio_features (existing := existing)).
Qed.

Lemma appends_discard_known_track_ids_witness :
  save_to_csv [Examples.song "a" "Renamed" "z"; Examples.song "d" "Delta" "w"]
    jpop_dataset Examples.store1 =
  (Ok tt,
   write jpop_dataset [Examples.song "a" "Alpha" "x"; Examples.song "d" "Delta" "w"]
     Examples.store1) /\
  save_audio_features_to_csv [Examples.analysis "a" 0.75%float; Examples.analysis "d" 0.125%float]
    audio_features_dataset Examples.store1 =
  (Ok tt,
   write audio_features_dataset [Examples.analysis "a" 0.5%float; Examples.analysis "d" 0.125%float]
     Examples.store1).
Proof.
  split.
  - exact (proj1 (proj1 appends_discard_known_track_ids Track jpop_dataset
                    [Examples.song "a" "Renamed" "z"; Examples.song "d" "Delta" "w"]
                    Examples.store1)).
  - exact (proj2 appends_discard_known_track_ids
             [Examples.analysis "a" 0.75%float; Examples.analysis "d" 0.125%float]
             [Examples.analysis "a" 0.5%float] Examples.store1).
Defined.

(** *** Tracks without audio features *)

Lemma non_null_dicts_shorter (lookup : string -> option Spotify.AudioFeaturesObject)
    (track_ids : list string) (id : string) :
  In id track_ids -> lookup id = None ->
  (length (non_null_dicts (map lookup track_ids)) < length track_ids)%nat.
Proof.
  intros Hin Hnull.
  pose proof (non_null_dicts_length lookup track_ids) as E.
  assert (In id (filter (is_null lookup) track_ids)) as Hf.
  { apply filter_In. split; [exact Hin|]. unfold is_null. now rewrite Hnull. }
  destruct (filter (is_null lookup) track_ids); [destruct Hf|simpl in E; lia].
Qed.

(** C10: [get_audio_features] returns one record per id answered by a
    non-null object, in order, and omits the ids answered by null, so the
    result is strictly shorter than the input as soon as one id is answered
    by null.  A track dropped this way, once its metadata is saved, has a
    metadata row and no audio-feature row, and the next [data_clean] leaves
    it out of the unified table. *)
Theorem get_audio_features_omits_null_answers
    (sp : Spotify.Client) (lookup : string -> option Spotify.AudioFeaturesObject) :
  (forall batch, Spotify.audio_features sp batch = Ok (map lookup batch)) ->
  (forall track_ids,
     get_audio_features track_ids sp = Ok (non_null_dicts (map lookup track_ids)) /\
     (length (non_null_dicts (map lookup track_ids)) +
      length (filter (is_null lookup) track_ids) = length track_ids)%nat /\
     (forall id, In id track_ids -> lookup id = None ->
        (length (non_null_dicts (map lookup track_ids)) < length track_ids)%nat))
  /\
  (forall (t : string) (track_data : Track) (fs : Files)
          (a : list AudioFeatures) (c : list Unified),
     lookup t = None ->
     track_id track_data = t ->
     audio_features_dataset_csv fs = Some a ->
     combined_dataset_csv fs = Some c ->
     ~ In t (map af_track_id a) ->
     exists fs1 fs2,
       (external_audio_features <- lift (get_audio_features [t] sp) ;;
        save_audio_features_to_csv external_audio_features audio_features_dataset ;;
        save_to_csv [track_data] jpop_dataset)%io fs = (Ok tt, fs1) /\
       In t (ids jpop_dataset fs1) /\
       ~ In t (ids audio_features_dataset fs1) /\
       data_clean fs1 = (Ok tt, fs2) /\
       ~ In t (ids combined_dataset fs2)).
Proof.
  intros answers. split.
  - intros track_ids. split; [now apply get_audio_features_returns|].
    split; [apply non_null_dicts_length|apply non_null_dicts_shorter].
  - intros t track_data fs a c Hnull Hid Ha Hc Hnew.
    pose (fs0 := write audio_features_dataset (a ++ []) fs).
    pose (fs1 := snd (save_to_csv [track_data] jpop_dataset fs0)).
    assert (Hrun : (external_audio_features <- lift (get_audio_features [t] sp) ;;
                    save_audio_features_to_csv external_audio_features audio_features_dataset ;;
                    save_to_csv [track_data] jpop_dataset)%io fs = (Ok tt, fs1)).
    { unfold io_bind at 1. unfold lift.
      rewrite (get_audio_features_returns sp lookup answers). simpl map. rewrite Hnull.
      simpl non_null_dicts. unfold io_bind.
      rewrite (save_audio_features_to_csv_run [] (existing := a) fs Ha). simpl filter.
      fold fs0. unfold fs1. now rewrite save_to_csv_run. }
    assert (Hj1 : In t (ids jpop_dataset fs1)).
    { unfold fs1. apply save_to_csv_ids. right. simpl. now left. }
    assert (Ha1 : ids audio_features_dataset fs1 = map af_track_id a).
    { unfold fs1. rewrite save_to_csv_run. unfold ids. simpl. now rewrite app_nil_r. }
    assert (Hfiles : exists j1, jpop_dataset_csv fs1 = Some j1 /\
                                audio_features_dataset_csv fs1 = Some (a ++ []) /\
                                combined_dataset_csv fs1 = Some c).
    { unfold fs1. rewrite save_to_csv_run. simpl. eexists. split; [reflexivity|].
      split; [reflexivity|exact Hc]. }
    destruct Hfiles as (j1 & Hj & Ha' & Hc').
    pose proof (data_clean_run _ Hj Ha' Hc') as Hclean. cbv zeta in Hclean.
    eexists fs1, _. split; [exact Hrun|]. split; [exact Hj1|].
    split; [now rewrite Ha1|]. split; [exact Hclean|].
    intros Hin. apply (data_clean_ids _ t Hclean) in Hin.
    rewrite Ha1 in Hin. tauto.
Qed.

Lemma get_audio_features_omits_null_answers_witness :
  get_audio_features ["a"; "b"] Examples.sp_down = Ok [Examples.analysis "a" 0.5%float] /\
  exists fs2,
    data_clean
      (snd ((external_audio_features <- lift (get_audio_features ["b"] Examples.sp_down) ;;
             save_audio_features_to_csv external_audio_features audio_features_dataset ;;
             save_to_csv [Examples.song "b" "Beta" "y"] jpop_dataset)%io Examples.store1)) =
    (Ok tt, fs2) /\
    ~ In "b" (ids combined_dataset fs2).
Proof.
  pose proof (get_audio_features_omits_null_answers Examples.sp_down Examples.lookup0
                (fun batch => eq_refl)) as [Hget Hdrop].
  split.
  - exact (proj1 (Hget ["a"; "b"])).
  - destruct (Hdrop "b" (Examples.song "b" "Beta" "y") Examples.store1
                [Examples.analysis "a" 0.5%float]
                [{| u_track := Examples.song "a" "Alpha" "x"; u_audio := Examples.vec 0.5%float |}]
                eq_refl eq_refl eq_refl eq_refl)
      as (fs1 & fs2 & Hrun & _ & _ & Hclean & Hout).
    + simpl. intros [H|[]]. discriminate H.
    + exists fs2. rewrite Hrun. split; [exact Hclean|exact Hout].
Defined.

(** *** Tables that already carry their clusters *)






(** *** Track ids shared by the two source tables *)

Lemma keeps_shared_ret (A : Type) (a : A) : keeps_shared (ret a).
Proof. intros fs k H. exact H. Qed.

Lemma keeps_shared_raise (A : Type) (e : exn) : keeps_shared (raise (A := A) e).
Proof. intros fs k H. exact H. Qed.

Lemma keeps_shared_lift (A : Type) (m : result A) : keeps_shared (lift m).
Proof. intros fs k H. exact H. Qed.

Lemma keeps_shared_bind (A B : Type) (m : IO A) (f : A -> IO B) :
  keeps_shared m -> (forall a, keeps_shared (f a)) -> keeps_shared (io_bind m f).
Proof.
  intros Hm Hf fs k H. unfold io_bind.
  specialize (Hm fs k H). destruct (m fs) as [[a|e] fs']; simpl in Hm.
  - now apply Hf.
  - exact Hm.
Qed.

Lemma keeps_shared_read_csv (R : Set) (f : filename R) : keeps_shared (read_csv f).
Proof. intros fs k H. unfold read_csv. now destruct (contents f fs). Qed.

Lemma keeps_shared_remove_comma (R : Set) (f : filename R) : keeps_shared (remove_comma f).
Proof. intros fs k H. unfold remove_comma. now destruct (contents f fs). Qed.

Lemma keeps_shared_save_to_csv (tracks : list Track) :
  keeps_shared (save_to_csv tracks jpop_dataset).
Proof.
  intros fs k [Hj Ha]. split.
  - now apply save_to_csv_keeps_ids.
  - rewrite save_to_csv_run. exact Ha.
Qed.

Lemma keeps_shared_save_audio_features_to_csv (audio_features : list AudioFeatures) :
  keeps_shared (save_audio_features_to_csv audio_features audio_features_dataset).
Proof.
  intros fs k [Hj Ha].
  destruct (audio_features_dataset_csv fs) as [existing|] eqn:E.
  - rewrite (save_audio_features_to_csv_run audio_features fs E). split; [exact Hj|].
    unfold ids. simpl. rewrite map_app, in_app_iff. left.
    unfold ids in Ha. simpl contents in Ha. now rewrite E in Ha.
  - unfold ids in Ha. simpl contents in Ha. rewrite E in Ha. destruct Ha.
Qed.

(** [data_clean] keeps the shared ids even when it raises half-way. *)
Lemma keeps_shared_data_clean : keeps_shared data_clean.
Proof.
  intros fs k [Hj Ha]. unfold ids in Hj, Ha. simpl contents in Hj, Ha.
  unfold data_clean, io_bind, read_csv, to_csv, remove_comma. simpl contents.
  destruct (jpop_dataset_csv fs) as [j|] eqn:Ej; [|destruct Hj].
  destruct (audio_features_dataset_csv fs) as [a|] eqn:Ea; [|destruct Ha].
  simpl id_column in Hj, Ha.
  assert (In k (map track_id
                  (filter (fun r => isin (track_id r)
                             (intersection
                                (map track_id (drop_duplicates String.eqb track_id j))
                                (map af_track_id (drop_duplicates String.eqb af_track_id a))))
                          (drop_duplicates String.eqb track_id j))) /\
          In k (map af_track_id
                  (filter (fun r => isin (af_track_id r)
                             (intersection
                                (map track_id (drop_duplicates String.eqb track_id j))
                                (map af_track_id (drop_duplicates String.eqb af_track_id a))))
                          (drop_duplicates String.eqb af_track_id a)))) as Hk.
  { rewrite clean_jpop_ids, clean_audio_ids, common_In. tauto. }
  simpl. destruct (combined_dataset_csv fs); exact Hk.
Qed.

(** C8 as stated fails for [data_clean]: track b of [Examples.store0] has a
    metadata row and no audio features, and the run removes its row from the
    metadata table. *)
Lemma data_clean_deletes_metadata_rows :
  In "b" (ids jpop_dataset Examples.store0) /\
  data_clean Examples.store0 = (Ok tt, Examples.store1) /\
  ~ In "b" (ids jpop_dataset Examples.store1).
Proof.
  split; [simpl; tauto|]. split; [reflexivity|].
  simpl. intros [H|[]]. discriminate H.
Qed.

End UtilityFacts.

(** ** The recommender *)

Module BackendFacts.

Import Pandas Utility Backend PandasFacts UtilityFacts.

(** *** Cluster peers *)

(** The cluster signal, when there is one, has exactly five rows: the size
    of the sample is the literal 5. *)
Lemma recommend_from_cluster_returns_five (rng : list nat) (track_id : string)
    (df : DataFrame) (out : list Rec) :
  recommend_from_cluster rng track_id df = Ok out -> length out = 5%nat.
Proof.
  unfold recommend_from_cluster.
  destruct (cluster_in_columns df); simpl; [|discriminate].
  destruct (map cluster _) as [|cluster_id rest]; [discriminate|].
  destruct (sample rng 5 _) as [recs|e] eqn:E; simpl; [|discriminate].
  intros [= <-]. apply sample_inv in E as [Hn ->].
  rewrite length_map, choice_length. simpl Z.to_nat. lia.
Qed.

(** C1: the code raises where the claim asks for the available peers.  For
    a track whose cluster has fewer than five rows (the query track
    included), [recommend_from_cluster] raises ValueError: [sample(5)] asks
    for more rows than the cluster holds. *)
Theorem recommend_from_cluster_small_cluster_raises (rng : list nat) (track_id : string)
    (df : DataFrame) (cluster_id : option Z) (rest : list (option Z)) :
  cluster_in_columns df = true ->
  map cluster (filter (fun r => String.eqb (row_track_id r) track_id) (rows df)) =
    cluster_id :: rest ->
  (length (filter (fun r => cluster_eqb (cluster r) cluster_id) (rows df)) < 5)%nat ->
  recommend_from_cluster rng track_id df = Raise ValueError.
Proof.
  intros Hc Hid Hsmall. unfold recommend_from_cluster.
  rewrite Hc, Hid. simpl negb. cbv iota.
  rewrite sample_too_large by lia. reflexivity.
Qed.

Lemma recommend_from_cluster_small_cluster_raises_witness :
  recommend_from_cluster [3; 1; 4; 1; 5]%nat "t11" Examples.df12 = Raise ValueError.
Proof.
  apply (recommend_from_cluster_small_cluster_raises _ "t11" Examples.df12
           (cluster_id := Some 9%Z) (rest := [])).
  - reflexivity.
  - reflexivity.
  - simpl. lia.
Defined.

(** Nothing catches the exception: for a track of the loaded table the whole
    query raises what the cluster lookup raises. *)
Lemma hybrid_recommendation_raises_with_cluster (sp : Spotify.Client)
    (combined_df : DataFrame) (kneighbors : nat -> Z -> result (list nat))
    (rng_cluster rng_final : list nat) (track_id : string) (df : DataFrame)
    (n_cluster_recs n_collab_recs n_external_recs : Z) (fs : Files) (e : exn) :
  isin track_id (map row_track_id (rows combined_df)) = true ->
  recommend_from_cluster rng_cluster track_id df = Raise e ->
  hybrid_recommendation sp combined_df kneighbors rng_cluster rng_final track_id df
    n_cluster_recs n_collab_recs n_external_recs fs = (Raise e, fs).
Proof.
  intros Hknown Hcl. unfold hybrid_recommendation.
  rewrite Hknown. simpl negb. rewrite andb_false_r.
  unfold io_bind, ret, lift. now rewrite Hcl.
Qed.

Lemma cluster_eqb_refl (c : option Z) : c <> None -> cluster_eqb c c = true.
Proof. destruct c as [z|]; [intros _; apply Z.eqb_refl|congruence]. Qed.

(** C2: the cluster signal does not exclude the query track.  When the
    cluster of the query track has exactly five rows, the sample is the whole
    cluster, and the row of the query track is part of the result whatever
    the random draws. *)
Theorem recommend_from_cluster_includes_query (rng : list nat) (track_id : string)
    (df : DataFrame) (r : Row) (rest : list Row) :
  cluster_in_columns df = true ->
  filter (fun x => String.eqb (row_track_id x) track_id) (rows df) = r :: rest ->
  cluster r <> None ->
  length (filter (fun x => cluster_eqb (cluster x) (cluster r)) (rows df)) = 5%nat ->
  exists out, recommend_from_cluster rng track_id df = Ok out /\ In (project r) out.
Proof.
  intros Hc Hid Hlabel Hfive. unfold recommend_from_cluster.
  rewrite Hc, Hid. simpl negb. simpl map. cbv beta iota.
  rewrite sample_ok by lia. cbn [bind].
  eexists. split; [reflexivity|].
  apply in_map. eapply Permutation_in.
  - symmetry. apply choice_all. rewrite Hfive. simpl. lia.
  - apply filter_In. split.
    + assert (In r (r :: rest)) as Hr by now left.
      rewrite <- Hid in Hr. now apply filter_In in Hr.
    + now apply cluster_eqb_refl.
Qed.

Lemma recommend_from_cluster_includes_query_witness :
  exists out,
    recommend_from_cluster [3; 1; 4; 1; 5]%nat "a" Examples.df5 = Ok out /\
    In (project (Examples.row 0 "a" "Alpha" "x" 0.5%float 0)) out.
Proof.
  apply (recommend_from_cluster_includes_query _ "a" Examples.df5 (rest := [])).
  - reflexivity.
  - reflexivity.
  - discriminate.
  - reflexivity.
Defined.

(** *** Sampling the merged set *)

Lemma pair_eqb_eq (x y : string * string) : pair_eqb x y = true <-> x = y.
Proof.
  destruct x as [a b], y as [c d]. unfold pair_eqb. simpl.
  rewrite andb_true_iff, !String.eqb_eq. split; [intros [-> ->]|intros [= -> ->]]; auto.
Qed.

Lemma combine_recommendations_incl (cluster_recs collab_recs external_recs_df : list Rec) :
  incl (combine_recommendations cluster_recs collab_recs external_recs_df)
       (cluster_recs ++ collab_recs ++ external_recs_df).
Proof.
  intros r Hr. unfold combine_recommendations, drop_duplicates in Hr.
  now apply (drop_duplicates_from_In pair_eqb rec_key pair_eqb_eq) in Hr.
Qed.

Lemma combine_recommendations_nil (cluster_recs collab_recs external_recs_df : list Rec) :
  combine_recommendations cluster_recs collab_recs external_recs_df = [] <->
  cluster_recs ++ collab_recs ++ external_recs_df = [].
Proof.
  unfold combine_recommendations, drop_duplicates.
  destruct (cluster_recs ++ collab_recs ++ external_recs_df); simpl; split;
    congruence.
Qed.

Lemma sample_recommendations_message (rng : list nat) (combined_recs : list Rec)
    (n_cluster_recs n_collab_recs n_external_recs : Z) :
  (combined_recs = [] \/ n_cluster_recs + n_collab_recs + n_external_recs <= 0)%Z ->
  sample_recommendations rng combined_recs n_cluster_recs n_collab_recs n_external_recs =
  Ok (Message "No recommendations available.").
Proof.
  intros H. unfold sample_recommendations. cbv zeta.
  rewrite Z.gtb_ltb.
  destruct (Z.ltb_spec 0
              (Z.min (Z.of_nat (length combined_recs))
                     (n_cluster_recs + n_collab_recs + n_external_recs))) as [Hpos|];
    [|reflexivity].
  destruct H as [-> |H]; simpl in Hpos; lia.
Qed.

Lemma sample_recommendations_table (rng : list nat) (combined_recs : list Rec)
    (n_cluster_recs n_collab_recs n_external_recs : Z) :
  combined_recs <> [] ->
  (0 < n_cluster_recs + n_collab_recs + n_external_recs)%Z ->
  let sample_size :=
    Z.min (Z.of_nat (length combined_recs))
          (n_cluster_recs + n_collab_recs + n_external_recs) in
  sample_recommendations rng combined_recs n_cluster_recs n_collab_recs n_external_recs =
  Ok (Table (choice rng (Z.to_nat sample_size) combined_recs)) /\
  (0 < sample_size)%Z.
Proof.
  intros Hne Hpos sample_size.
  assert (0 < Z.of_nat (length combined_recs))%Z as Hlen
    by (destruct combined_recs; [congruence|simpl; lia]).
  assert (0 < sample_size)%Z as Hs by (unfold sample_size; lia).
  split; [|exact Hs].
  unfold sample_recommendations. cbv zeta. fold sample_size.
  rewrite Z.gtb_ltb. destruct (Z.ltb_spec 0 sample_size); [|lia].
  rewrite sample_ok by (unfold sample_size; lia). reflexivity.
Qed.

(** C3, as the code has it.  With a positive requested total: a merged set
    larger than the total is sampled down to exactly the total, without
    replacement; a merged set of 1 to total rows is returned whole
    (reordered by the sample).  An empty merged set, or a requested total
    that is not positive, gives the message.  The sample never asks for
    more rows than there are: no case raises. *)
Theorem sample_recommendations_cases (rng : list nat) (combined_recs : list Rec)
    (n_cluster_recs n_collab_recs n_external_recs : Z) :
  let requested := (n_cluster_recs + n_collab_recs + n_external_recs)%Z in
  let size := Z.of_nat (length combined_recs) in
  let returned :=
    sample_recommendations rng combined_recs n_cluster_recs n_collab_recs n_external_recs in
  ((0 < requested < size)%Z ->
   exists recs, returned = Ok (Table recs) /\
                Z.of_nat (length recs) = requested /\
                exists rest, Permutation (recs ++ rest) combined_recs) /\
  ((1 <= size <= requested)%Z ->
   exists recs, returned = Ok (Table recs) /\ Permutation recs combined_recs) /\
  ((size = 0 \/ requested <= 0)%Z ->
   returned = Ok (Message "No recommendations available.")) /\
  (forall e, returned <> Raise e).
Proof.
  intros requested size returned.
  assert (forall P Q R : Prop, P -> Q -> R -> (P -> Q -> R -> forall e, returned <> Raise e) ->
          P /\ Q /\ R /\ forall e, returned <> Raise e) as Hfour by (intros; tauto).
  apply Hfour; clear Hfour.
  4: { intros H1 H2 H3 e E.
       destruct (Z.leb_spec requested 0) as [Hle|Hpos];
         [rewrite H3 in E by (now right); discriminate E|].
       destruct (Z.leb_spec size 0) as [Hz|Hs];
         [rewrite H3 in E by (left; unfold size in *; lia); discriminate E|].
       destruct (Z.leb_spec size requested) as [Hsmall|Hlarge].
       - destruct H2 as (recs & E' & _); [lia|]. rewrite E' in E. discriminate E.
       - destruct H1 as (recs & E' & _); [lia|]. rewrite E' in E. discriminate E. }
  - intros [Hpos Hlt].
    assert (combined_recs <> []) as Hne
      by (intros ->; unfold size in Hlt; simpl in Hlt; lia).
    destruct (sample_recommendations_table rng n_cluster_recs n_collab_recs
                n_external_recs Hne Hpos) as [E _].
    fold requested size in E. rewrite Z.min_r in E by lia.
    exists (choice rng (Z.to_nat requested) combined_recs). split; [exact E|]. split.
    + rewrite choice_length. unfold size in Hlt. lia.
    + apply choice_without_replacement.
  - intros [Hone Hle].
    assert (combined_recs <> []) as Hne
      by (intros ->; unfold size in Hone; simpl in Hone; lia).
    assert (0 < requested)%Z as Hpos by lia.
    destruct (sample_recommendations_table rng n_cluster_recs n_collab_recs
                n_external_recs Hne Hpos) as [E _].
    fold requested size in E. rewrite Z.min_l in E by lia.
    exists (choice rng (Z.to_nat size) combined_recs). split; [exact E|].
    apply choice_all. unfold size. lia.
  - intros H. apply sample_recommendations_message.
    destruct H as [H|H]; [left|now right].
    destruct combined_recs; [reflexivity|unfold size in H; simpl in H; lia].
Qed.

Lemma sample_recommendations_cases_witness :
  exists recs,
    sample_recommendations [2; 0; 1]%nat
      (map project (rows Examples.df5)) 1 1 1 = Ok (Table recs) /\
    Z.of_nat (length recs) = 3%Z /\
    exists rest, Permutation (recs ++ rest) (map project (rows Examples.df5)).
Proof.
  apply (proj1 (sample_recommendations_cases [2; 0; 1]%nat
                  (map project (rows Examples.df5)) 1 1 1)).
  simpl. lia.
Defined.

(** C3 as stated fails when the requested total is zero: the merged set of
    the five cluster rows of [Examples.df5] is larger than the total, and
    the answer is the message, not a sample of zero rows. *)
Lemma sample_recommendations_zero_total :
  let merged :=
    combine_recommendations (map project (firstn 5 (rows Examples.df5))) [] [] in
  length merged = 5%nat /\
  sample_recommendations [] merged 0 0 0 = Ok (Message "No recommendations available.").
Proof. split; reflexivity. Qed.

(** *** The external service *)

Section ExternalServiceDown.

Variable sp : Spotify.Client.
Hypothesis down :
  forall seed_tracks seed_artists seed_genres limit,
    exists e, Spotify.recommendations sp seed_tracks seed_artists seed_genres limit = Raise e.

Lemma spotify_external_recommendations_down
    (seed_tracks seed_artists : option (list string)) (seed_genres : list string) (limit : Z) :
  spotify_external_recommendations sp seed_tracks seed_artists seed_genres limit = [].
Proof.
  unfold spotify_external_recommendations.
  destruct (down seed_tracks seed_artists seed_genres limit) as [e ->]. reflexivity.
Qed.

Variable combined_df : DataFrame.
Variable kneighbors : nat -> Z -> result (list nat).

(** For a track of the loaded table, with the service down, a run whose two
    local signals return is the sample of their merge and writes nothing. *)
Lemma hybrid_recommendation_local_signals
    (rng_cluster rng_final : list nat) (track_id : string) (df : DataFrame)
    (n_cluster_recs n_collab_recs n_external_recs : Z) (fs : Files)
    (cluster_recs collab_recs : list Rec) (c : list Unified) :
  isin track_id (map row_track_id (rows combined_df)) = true ->
  recommend_from_cluster rng_cluster track_id df = Ok cluster_recs ->
  recommend_collaborative combined_df kneighbors track_id df n_collab_recs = Ok collab_recs ->
  combined_dataset_csv fs = Some c ->
  hybrid_recommendation sp combined_df kneighbors rng_cluster rng_final track_id df
    n_cluster_recs n_collab_recs n_external_recs fs =
  (sample_recommendations rng_final (combine_recommendations cluster_recs collab_recs [])
     n_cluster_recs n_collab_recs n_external_recs, fs).
Proof.
  intros Hknown Hcl Hco Hc. unfold hybrid_recommendation.
  rewrite Hknown. simpl negb. rewrite andb_false_r.
  unfold io_bind, ret, lift. rewrite Hcl, Hco. cbv zeta.
  rewrite spotify_external_recommendations_down.
  unfold remove_comma. simpl contents. rewrite Hc. reflexivity.
Qed.

End ExternalServiceDown.

(** C4, as the code has it.  If every call of the recommendation endpoint
    raises, [spotify_external_recommendations] returns the empty list.  Then,
    for a track of the loaded table and a run in which both
    [recommend_from_cluster] and [recommend_collaborative] return:
    nothing is written; with a positive requested total and a non-empty
    cluster or collaborative signal the result is a non-empty table of rows
    of these two signals; and the message is returned exactly when both
    signals are empty or the requested total is not positive. *)
Theorem hybrid_recommendation_without_external_service (sp : Spotify.Client) :
  (forall seed_tracks seed_artists seed_genres limit,
     exists e, Spotify.recommendations sp seed_tracks seed_artists seed_genres limit = Raise e) ->
  (forall seed_tracks seed_artists seed_genres limit,
     spotify_external_recommendations sp seed_tracks seed_artists seed_genres limit = [])
  /\
  (forall (combined_df : DataFrame) (kneighbors : nat -> Z -> result (list nat))
          (rng_cluster rng_final : list nat) (track_id : string) (df : DataFrame)
          (n_cluster_recs n_collab_recs n_external_recs : Z) (fs : Files)
          (cluster_recs collab_recs : list Rec) (c : list Unified),
     isin track_id (map row_track_id (rows combined_df)) = true ->
     recommend_from_cluster rng_cluster track_id df = Ok cluster_recs ->
     recommend_collaborative combined_df kneighbors track_id df n_collab_recs = Ok collab_recs ->
     combined_dataset_csv fs = Some c ->
     let requested := (n_cluster_recs + n_collab_recs + n_external_recs)%Z in
     let returned :=
       hybrid_recommendation sp combined_df kneighbors rng_cluster rng_final track_id df
         n_cluster_recs n_collab_recs n_external_recs fs in
     snd returned = fs /\
     ((0 < requested)%Z -> cluster_recs <> [] \/ collab_recs <> [] ->
      exists recs, fst returned = Ok (Table recs) /\ recs <> [] /\
                   incl recs (cluster_recs ++ collab_recs)) /\
     ((cluster_recs = [] /\ collab_recs = []) \/ (requested <= 0)%Z <->
      fst returned = Ok (Message "No recommendations available."))).
Proof.
  intros down. split; [apply spotify_external_recommendations_down, down|].
  intros combined_df kneighbors rng_cluster rng_final track_id df
         n_cluster_recs n_collab_recs n_external_recs fs cluster_recs collab_recs c
         Hknown Hcl Hco Hc requested returned.
  unfold returned.
  rewrite (hybrid_recommendation_local_signals sp down combined_df kneighbors rng_cluster
             rng_final track_id df n_cluster_recs n_collab_recs n_external_recs fs
             Hknown Hcl Hco Hc).
  simpl fst. simpl snd.
  set (merged := combine_recommendations cluster_recs collab_recs []).
  assert (Hnil : merged = [] <-> cluster_recs = [] /\ collab_recs = []).
  { unfold merged. rewrite combine_recommendations_nil, app_nil_r.
    split; [apply app_eq_nil|intros [-> ->]; reflexivity]. }
  split; [reflexivity|]. split.
  - intros Hpos Hsome.
    assert (merged <> []) as Hne by (rewrite Hnil; intros [-> ->]; tauto).
    destruct (sample_recommendations_table rng_final n_cluster_recs n_collab_recs
                n_external_recs Hne Hpos) as [E Hsize].
    eexists. split; [exact E|]. split.
    + intros Hempty. apply (f_equal (@length Rec)) in Hempty.
      rewrite choice_length in Hempty. simpl in Hempty.
      destruct merged; [congruence|simpl in Hempty, Hsize; lia].
    + intros r Hr.
      destruct (choice_without_replacement
                  (Z.to_nat (Z.min (Z.of_nat (length merged))
                                   (n_cluster_recs + n_collab_recs + n_external_recs)))
                  rng_final merged) as [rest Hperm].
      assert (In r merged) as Hm
        by (eapply Permutation_in; [exact Hperm|apply in_or_app; now left]).
      apply combine_recommendations_incl in Hm. now rewrite app_nil_r in Hm.
  - split.
    + intros H. apply sample_recommendations_message. rewrite Hnil. exact H.
    + intros E.
      destruct (Z.leb_spec requested 0) as [|Hpos]; [now right|]. left.
      apply Hnil.
      destruct merged as [|x merged'] eqn:Em; [reflexivity|].
      assert (x :: merged' <> []) as Hne by discriminate.
      destruct (sample_recommendations_table rng_final n_cluster_recs n_collab_recs
                  n_external_recs Hne Hpos) as [E' _].
      rewrite E' in E. discriminate E.
Qed.

Lemma hybrid_recommendation_without_external_service_witness :
  exists recs,
    fst (hybrid_recommendation Examples.sp_down Examples.df5 (Examples.kneighbors 6)
           [3; 1; 4; 1; 5]%nat [2; 7; 1; 8]%nat "a" Examples.df5 5 5 5 Examples.store1) =
    Ok (Table recs) /\
    recs <> [].
Proof.
  destruct (hybrid_recommendation_without_external_service Examples.sp_down) as [_ H].
  - intros; now exists SpotifyException.
  - destruct (H Examples.df5 (Examples.kneighbors 6) [3; 1; 4; 1; 5]%nat [2; 7; 1; 8]%nat
                "a" Examples.df5 5%Z 5%Z 5%Z Examples.store1
                (map project [Examples.row 3 "d" "Delta" "x" 0.5%float 0;
                              Examples.row 1 "b" "Beta" "x" 0.5%float 0;
                              Examples.row 2 "c" "Gamma" "x" 0.5%float 0;
                              Examples.row 4 "e" "Epsilon" "x" 0.5%float 0;
                              Examples.row 0 "a" "Alpha" "x" 0.5%float 0])
                (map project [Examples.row 1 "b" "Beta" "x" 0.5%float 0;
                              Examples.row 2 "c" "Gamma" "x" 0.5%float 0;
                              Examples.row 3 "d" "Delta" "x" 0.5%float 0;
                              Examples.row 4 "e" "Epsilon" "x" 0.5%float 0;
                              Examples.row 5 "f" "Zeta" "y" 0.25%float 1])
                _ eq_refl eq_refl eq_refl eq_refl)
      as (_ & Htable & _).
    destruct Htable as (recs & E & Hne & _); [lia|left; discriminate|].
    exists recs. split; [exact E|exact Hne].
Defined.

(** C4 as stated fails when the requested total is zero: the cluster signal
    of track a has five rows, the service is down, and the run returns the
    message. *)
Lemma hybrid_recommendation_zero_total :
  exists cluster_recs,
    recommend_from_cluster [] "a" Examples.df5 = Ok cluster_recs /\
    cluster_recs <> [] /\
    hybrid_recommendation Examples.sp_down Examples.df5 (Examples.kneighbors 6)
      [] [] "a" Examples.df5 0 0 0 Examples.store1 =
    (Ok (Message "No recommendations available."), Examples.store1).
Proof.
  eexists. split; [reflexivity|]. split; [discriminate|reflexivity].
Qed.

(** *** The requested counts *)

(** C5: [n_cluster_recs] does not bound the cluster signal.  With the
    service down and no collaborative neighbour, a run on a track of the
    loaded table returns the whole cluster signal, five rows, as soon as the
    three counts add up to five, however small [n_cluster_recs] is. *)
Theorem hybrid_recommendation_ignores_n_cluster_recs
    (sp : Spotify.Client) (combined_df : DataFrame)
    (kneighbors : nat -> Z -> result (list nat)) (rng_cluster rng_final : list nat)
    (track_id : string) (df : DataFrame) (n_cluster_recs n_external_recs : Z)
    (fs : Files) (cluster_recs : list Rec) (c : list Unified) :
  (forall seed_tracks seed_artists seed_genres limit,
     exists e, Spotify.recommendations sp seed_tracks seed_artists seed_genres limit = Raise e) ->
  isin track_id (map row_track_id (rows combined_df)) = true ->
  recommend_from_cluster rng_cluster track_id df = Ok cluster_recs ->
  recommend_collaborative combined_df kneighbors track_id df 0 = Ok [] ->
  combined_dataset_csv fs = Some c ->
  NoDup (map rec_key cluster_recs) ->
  (5 <= n_cluster_recs + 0 + n_external_recs)%Z ->
  exists recs,
    hybrid_recommendation sp combined_df kneighbors rng_cluster rng_final track_id df
      n_cluster_recs 0 n_external_recs fs = (Ok (Table recs), fs) /\
    Permutation recs cluster_recs /\
    length recs = 5%nat.
Proof.
  intros down Hknown Hcl Hco Hc Hnd Hreq.
  rewrite (hybrid_recommendation_local_signals sp down combined_df kneighbors rng_cluster
             rng_final track_id df n_cluster_recs 0 n_external_recs fs Hknown Hcl Hco Hc).
  pose proof (recommend_from_cluster_returns_five _ _ _ Hcl) as Hfive.
  assert (combine_recommendations cluster_recs [] [] = cluster_recs) as ->.
  { unfold combine_recommendations. rewrite !app_nil_r.
    apply drop_duplicates_fixed; [apply pair_eqb_eq|exact Hnd]. }
  assert (cluster_recs <> []) as Hne by (intros ->; discriminate Hfive).
  destruct (sample_recommendations_table rng_final n_cluster_recs 0 n_external_recs Hne)
    as [E _]; [lia|].
  rewrite Hfive in E. rewrite Z.min_l in E by lia.
  eexists. split; [now rewrite E|].
  assert (Permutation (choice rng_final (Z.to_nat (Z.of_nat 5)) cluster_recs) cluster_recs)
    as Hperm by (apply choice_all; rewrite Hfive; simpl; lia).
  split; [exact Hperm|].
  now rewrite (Permutation_length Hperm).
Qed.

Lemma hybrid_recommendation_ignores_n_cluster_recs_witness :
  exists recs,
    hybrid_recommendation Examples.sp_down Examples.df5 (Examples.kneighbors 6)
      [] [] "a" Examples.df5 1 0 4 Examples.store1 = (Ok (Table recs), Examples.store1) /\
    Permutation recs (map project (firstn 5 (rows Examples.df5))) /\
    length recs = 5%nat.
Proof.
  apply (hybrid_recommendation_ignores_n_cluster_recs Examples.sp_down Examples.df5
           (Examples.kneighbors 6) [] [] "a" Examples.df5 1 4 Examples.store1
           (c := [{| u_track := Examples.song "a" "Alpha" "x";
                     u_audio := Examples.vec 0.5%float |}])).
  - intros; now exists SpotifyException.
  - reflexivity.
  - reflexivity.
  - reflexivity.
  - reflexivity.
  - simpl. repeat constructor; simpl; intuition discriminate.
  - lia.
Defined.

(** *** The collaborative signal *)

Lemma index_of_nth_error (x : string) (columns : list string) :
  forall i, index_of x columns = Some i -> nth_error columns i = Some x.
Proof.
  induction columns as [|c columns IH]; simpl; [discriminate|].
  destruct (String.eqb_spec c x) as [->|Hne].
  - now intros i [= <-].
  - destruct (index_of x columns) as [j|]; [|discriminate].
    intros i [= <-]. simpl. now apply IH.
Qed.

Lemma take_In (columns : list string) (indices : list nat) :
  forall ids, take columns indices = Ok ids ->
    forall id, In id ids -> exists j, In j indices /\ nth_error columns j = Some id.
Proof.
  induction indices as [|i indices IH]; simpl.
  - intros ids [= <-] id [].
  - destruct (nth_error columns i) as [c|] eqn:E; [|discriminate].
    destruct (take columns indices) as [cs|]; [|discriminate].
    intros ids [= <-] id [<-|Hin].
    + exists i. split; [now left|exact E].
    + destruct (IH cs eq_refl id Hin) as (j & Hj & Ej). exists j. split; [now right|exact Ej].
Qed.

(** The sibling path does exclude the query: when the track ids of the
    loaded table are distinct and the model ranks the query column first,
    without repeating it, the rows selected as collaborative neighbours are
    rows of other tracks. *)
Lemma recommend_collaborative_excludes_query (combined_df : DataFrame)
    (kneighbors : nat -> Z -> result (list nat)) (track_id : string) (df : DataFrame)
    (n_recommendations : Z) (i : nat) (others : list nat) (out : list Rec) :
  NoDup (interaction_columns combined_df) ->
  index_of track_id (interaction_columns combined_df) = Some i ->
  kneighbors i (n_recommendations + 1)%Z = Ok (i :: others) ->
  ~ In i others ->
  recommend_collaborative combined_df kneighbors track_id df n_recommendations = Ok out ->
  exists selected,
    out = map project selected /\
    incl selected (rows df) /\
    forall r, In r selected -> row_track_id r <> track_id.
Proof.
  intros Hnd Hi Hk Hself. unfold recommend_collaborative.
  destruct (isin track_id (interaction_columns combined_df)); simpl negb; cbv iota.
  - rewrite Hi, Hk. cbn [bind tl].
    destruct (take (interaction_columns combined_df) others) as [ids|] eqn:Et;
      cbn [bind]; [|discriminate].
    intros [= <-].
    assert (~ In track_id ids) as Hout.
    { intros Hin. destruct (take_In _ _ Et _ Hin) as (j & Hj & Ej).
      apply index_of_nth_error in Hi.
      assert (i = j) as ->; [|contradiction].
      eapply NoDup_nth_error; try eassumption.
      - apply nth_error_Some. congruence.
      - congruence. }
    eexists. split; [reflexivity|]. split.
    + intros r Hr. now apply filter_In in Hr.
    + intros r Hr E. apply filter_In in Hr as [_ Hsel].
      apply isin_In in Hsel. congruence.
  - intros [= <-]. exists []. split; [reflexivity|]. split; [intros r []|intros r []].
Qed.

(** *** Track ids across a run *)

Lemma keeps_shared_hybrid_recommendation (sp : Spotify.Client) (combined_df : DataFrame)
    (kneighbors : nat -> Z -> result (list nat)) (rng_cluster rng_final : list nat)
    (track_id : string) (df : DataFrame)
    (n_cluster_recs n_collab_recs n_external_recs : Z) :
  keeps_shared
    (hybrid_recommendation sp combined_df kneighbors rng_cluster rng_final track_id df
       n_cluster_recs n_collab_recs n_external_recs).
Proof.
  unfold hybrid_recommendation.
  repeat first
    [ apply keeps_shared_ret
    | apply keeps_shared_lift
    | apply keeps_shared_read_csv
    | apply keeps_shared_remove_comma
    | apply keeps_shared_save_to_csv
    | apply keeps_shared_save_audio_features_to_csv
    | apply keeps_shared_data_clean
    | match goal with
      | |- keeps_shared (if ?b then _ else _) => destruct b
      | |- keeps_shared (match ?l with [] => _ | _ :: _ => _ end) => destruct l
      | |- keeps_shared (let _ := _ in _) => cbv zeta
      end
    | apply keeps_shared_bind; [|intros ?] ].
Qed.

(** C8, as the code has it.  Appending with [save_to_csv] removes no
    track_id from the table.  [data_clean] aligns the two source tables: the
    metadata table keeps exactly the track_ids that also have an
    audio-feature row.  So [data_clean] and [hybrid_recommendation], which
    calls both, keep every track_id held by both tables, whether they return
    or raise. *)
Theorem shared_track_ids_are_never_deleted :
  (forall (R : Set) (tracks : list R) (f : filename R) (fs : Files) (k : string),
     In k (ids f fs) -> In k (ids f (snd (save_to_csv tracks f fs)))) /\
  (forall (fs fs' : Files) (k : string),
     data_clean fs = (Ok tt, fs') ->
     (In k (ids jpop_dataset fs') <-> shared fs k)) /\
  keeps_shared data_clean /\
  (forall (sp : Spotify.Client) (combined_df : DataFrame)
          (kneighbors : nat -> Z -> result (list nat)) (rng_cluster rng_final : list nat)
          (track_id : string) (df : DataFrame)
          (n_cluster_recs n_collab_recs n_external_recs : Z),
     keeps_shared
       (hybrid_recommendation sp combined_df kneighbors rng_cluster rng_final track_id df
          n_cluster_recs n_collab_recs n_external_recs)).
Proof.
  split; [intros; now apply save_to_csv_keeps_ids|].
  split; [intros fs fs' k H; apply (data_clean_ids _ k H)|].
  split; [apply keeps_shared_data_clean|].
  intros. apply keeps_shared_hybrid_recommendation.
Qed.

Lemma shared_track_ids_are_never_deleted_witness :
  shared Examples.store0 "a" /\
  shared (snd (data_clean Examples.store0)) "a" /\
  shared (snd (hybrid_recommendation Examples.sp_down Examples.df5 (Examples.kneighbors 6)
                 [] [] "g" Examples.df5 5 5 5 Examples.store0)) "a".
Proof.
  assert (shared Examples.store0 "a") as H by (split; simpl; tauto).
  destruct shared_track_ids_are_never_deleted as (_ & _ & Hclean & Hhybrid).
  split; [exact H|]. split.
  - exact (Hclean Examples.store0 "a" H).
  - exact (Hhybrid Examples.sp_down Examples.df5 (Examples.kneighbors 6) [] [] "g"
             Examples.df5 5%Z 5%Z 5%Z Examples.store0 "a" H).
Defined.

End BackendFacts.

(** ** The signals and the query, further *)

Module RecommenderFacts.

Import Pandas Utility Backend Views PandasFacts UtilityFacts BackendFacts.

Lemma filter_nil_no_match (A : Type) (p : A -> bool) (l : list A) :
  filter p l = [] -> forall x, In x l -> p x = false.
Proof.
  intros E x Hx. destruct (p x) eqn:Ep; [|reflexivity].
  assert (In x (filter p l)) as H by now apply filter_In.
  rewrite E in H. destruct H.
Qed.

(** X1: the outcomes of [recommend_from_cluster].  It returns only on a
    table with a [cluster] column that holds the query track and at least
    five rows of its cluster; the result is then five rows of that cluster,
    drawn without replacement.  Otherwise it raises, in this order: KeyError
    without the column, IndexError for a track that is not in the table,
    ValueError for a cluster of fewer than five rows. *)
Theorem recommend_from_cluster_outcomes (rng : list nat) (track_id : string)
    (df : DataFrame) :
  match recommend_from_cluster rng track_id df with
  | Ok out =>
      cluster_in_columns df = true /\
      exists r rest,
        filter (fun x => String.eqb (row_track_id x) track_id) (rows df) = r :: rest /\
        let peers := filter (fun x => cluster_eqb (cluster x) (cluster r)) (rows df) in
        (5 <= length peers)%nat /\
        length out = 5%nat /\
        exists unused, Permutation (out ++ unused) (map project peers)
  | Raise e =>
      (e = KeyError /\ cluster_in_columns df = false) \/
      (e = IndexError /\ cluster_in_columns df = true /\
       ~ In track_id (map row_track_id (rows df))) \/
      (e = ValueError /\ cluster_in_columns df = true /\
       exists r rest,
         filter (fun x => String.eqb (row_track_id x) track_id) (rows df) = r :: rest /\
         (length (filter (fun x => cluster_eqb (cluster x) (cluster r)) (rows df)) < 5)%nat)
  end.
Proof.
  unfold recommend_from_cluster.
  destruct (cluster_in_columns df); simpl negb; cbv iota; [|now left].
  destruct (filter (fun r => String.eqb (row_track_id r) track_id) (rows df))
    as [|r rest] eqn:Ef; simpl map; cbv beta iota.
  - right; left. repeat split. intros Hin.
    apply in_map_iff in Hin as (x & Hx & Hin).
    pose proof (filter_nil_no_match _ _ Ef x Hin) as H. simpl in H.
    rewrite Hx, String.eqb_refl in H. discriminate H.
  - set (peers := filter (fun x => cluster_eqb (cluster x) (cluster r)) (rows df)).
    destruct (Nat.lt_ge_cases (length peers) 5) as [Hlt|Hge].
    + rewrite sample_too_large by lia. cbn [bind].
      right; right. repeat split. now exists r, rest.
    + rewrite sample_ok by lia. cbn [bind].
      split; [reflexivity|]. exists r, rest. split; [reflexivity|]. cbv zeta.
      fold peers. split; [exact Hge|]. split.
      * rewrite length_map, choice_length. simpl Z.to_nat. lia.
      * destruct (choice_without_replacement (Z.to_nat 5) rng peers) as [unused Hperm].
        exists (map project unused). rewrite <- map_app. now apply Permutation_map.
Qed.

(** *** What a returning query went through *)

Lemma io_bind_returns (A B : Type) (m : IO A) (k : A -> IO B) (fs fs2 : Files) (b : B) :
  io_bind m k fs = (Ok b, fs2) ->
  exists a fs1, m fs = (Ok a, fs1) /\ k a fs1 = (Ok b, fs2).
Proof.
  unfold io_bind. destruct (m fs) as [[a|e] fs1]; [|discriminate].
  intros H. now exists a, fs1.
Qed.

Lemma lift_returns (A : Type) (m : result A) (fs fs1 : Files) (a : A) :
  lift m fs = (Ok a, fs1) -> m = Ok a /\ fs1 = fs.
Proof. unfold lift. now intros [= -> ->]. Qed.

Lemma remove_comma_returns (R : Set) (f : filename R) (fs fs1 : Files) (u : unit) :
  remove_comma f fs = (Ok u, fs1) -> contents f fs <> None /\ fs1 = fs.
Proof.
  unfold remove_comma. destruct (contents f fs); [|discriminate].
  intros [= _ ->]. split; [discriminate|reflexivity].
Qed.

(** A run that returns has sampled the merge of its three signals. *)
Lemma hybrid_recommendation_returns (sp : Spotify.Client) (combined_df : DataFrame)
    (kneighbors : nat -> Z -> result (list nat)) (rng_cluster rng_final : list nat)
    (track_id : string) (df : DataFrame)
    (n_cluster_recs n_collab_recs n_external_recs : Z) (fs fs' : Files)
    (returned : Recommendations) :
  hybrid_recommendation sp combined_df kneighbors rng_cluster rng_final track_id df
    n_cluster_recs n_collab_recs n_external_recs fs = (Ok returned, fs') ->
  exists cluster_recs collab_recs,
    recommend_from_cluster rng_cluster track_id df = Ok cluster_recs /\
    recommend_collaborative combined_df kneighbors track_id df n_collab_recs =
      Ok collab_recs /\
    sample_recommendations rng_final
      (combine_recommendations cluster_recs collab_recs
         (from_records
            (spotify_external_recommendations sp (Some [track_id]) None ["j-pop"] 20)))
      n_cluster_recs n_collab_recs n_external_recs = Ok returned /\
    combined_dataset_csv fs' <> None.
Proof.
  unfold hybrid_recommendation. intros H.
  apply io_bind_returns in H as (u & fs1 & _ & H).
  apply io_bind_returns in H as (cluster_recs & fs2 & Hcl & H).
  apply lift_returns in Hcl as [Hcl ->].
  apply io_bind_returns in H as (collab_recs & fs3 & Hco & H).
  apply lift_returns in Hco as [Hco ->].
  cbv zeta in H.
  apply io_bind_returns in H as (external_recs_df & fs4 & Hext & H).
  apply io_bind_returns in H as (u' & fs5 & Hrm & H).
  apply remove_comma_returns in Hrm as [Hc ->].
  apply lift_returns in H as [H ->].
  exists cluster_recs, collab_recs. split; [exact Hcl|]. split; [exact Hco|].
  split; [|exact Hc].
  assert (external_recs_df =
          from_records
            (spotify_external_recommendations sp (Some [track_id]) None ["j-pop"] 20))
    as <-; [|exact H].
  destruct (spotify_external_recommendations sp (Some [track_id]) None ["j-pop"] 20)
    as [|t ts].
  - unfold ret in Hext. now injection Hext as <- _.
  - apply io_bind_returns in Hext as (? & ? & _ & Hext).
    apply io_bind_returns in Hext as (? & ? & _ & Hext).
    apply io_bind_returns in Hext as (? & ? & _ & Hext).
    apply io_bind_returns in Hext as (? & ? & _ & Hext).
    unfold ret in Hext. now injection Hext as <- _.
Qed.

Lemma recommend_from_cluster_returns_inv (rng : list nat) (track_id : string)
    (df : DataFrame) (out : list Rec) :
  recommend_from_cluster rng track_id df = Ok out ->
  cluster_in_columns df = true /\
  In track_id (map row_track_id (rows df)) /\
  exists r rest,
    filter (fun x => String.eqb (row_track_id x) track_id) (rows df) = r :: rest /\
    (5 <= length (filter (fun x => cluster_eqb (cluster x) (cluster r)) (rows df)))%nat.
Proof.
  unfold recommend_from_cluster.
  destruct (cluster_in_columns df); simpl negb; cbv iota; [|discriminate].
  destruct (filter (fun r => String.eqb (row_track_id r) track_id) (rows df))
    as [|r rest] eqn:Ef; simpl map; cbv beta iota; [discriminate|].
  destruct (sample rng 5 _) as [recs|] eqn:Es; cbn [bind]; [|discriminate].
  intros _. apply sample_inv in Es as [Hn _].
  split; [reflexivity|]. split.
  - assert (In r (r :: rest)) as Hr by now left.
    rewrite <- Ef in Hr. apply filter_In in Hr as [Hr E].
    apply String.eqb_eq in E. rewrite <- E. now apply in_map.
  - exists r, rest. split; [reflexivity|lia].
Qed.

(** X2: what a query needs in order to return.  [hybrid_recommendation]
    returns, a table or the message, only if the table passed as [df] has a
    [cluster] column, holds the query track and holds at least five rows of
    its cluster, and only if combined_dataset.csv exists; in every other case
    it raises.  In particular a track that the run itself adds to the files
    is not served from the stale [df]. *)
Theorem hybrid_recommendation_returns_only_if (sp : Spotify.Client)
    (combined_df : DataFrame) (kneighbors : nat -> Z -> result (list nat))
    (rng_cluster rng_final : list nat) (track_id : string) (df : DataFrame)
    (n_cluster_recs n_collab_recs n_external_recs : Z) (fs fs' : Files)
    (returned : Recommendations) :
  hybrid_recommendation sp combined_df kneighbors rng_cluster rng_final track_id df
    n_cluster_recs n_collab_recs n_external_recs fs = (Ok returned, fs') ->
  cluster_in_columns df = true /\
  In track_id (map row_track_id (rows df)) /\
  (exists r rest,
     filter (fun x => String.eqb (row_track_id x) track_id) (rows df) = r :: rest /\
     (5 <= length (filter (fun x => cluster_eqb (cluster x) (cluster r)) (rows df)))%nat) /\
  combined_dataset_csv fs' <> None.
Proof.
  intros H. apply hybrid_recommendation_returns in H as (cl & co & Hcl & _ & _ & Hc).
  apply recommend_from_cluster_returns_inv in Hcl as (H1 & H2 & H3).
  repeat split; assumption.
Qed.

Lemma hybrid_recommendation_returns_only_if_witness :
  cluster_in_columns Examples.df5 = true /\
  In "a" (map row_track_id (rows Examples.df5)).
Proof.
  pose proof (hybrid_recommendation_returns_only_if Examples.sp_down Examples.df5
                (Examples.kneighbors 6) [] [] "a" Examples.df5 5 5 5
                Examples.store1 (fs' := Examples.store1) eq_refl) as (H1 & H2 & _).
  split; [exact H1|exact H2].
Defined.

End RecommenderFacts.

(** ** The feature store, further *)

Module StoreFacts.

Import Pandas Utility PandasFacts UtilityFacts.

(** X3: how [data_clean] fails.  When a source file is missing it raises
    FileNotFoundError and writes nothing.  When only combined_dataset.csv is
    missing it raises FileNotFoundError too, but after it has rewritten both
    source files: they then hold the track_ids the two tables shared, and
    the combined file is still missing. *)
Theorem data_clean_failures (fs : Files) :
  (jpop_dataset_csv fs = None \/ audio_features_dataset_csv fs = None ->
   data_clean fs = (Raise FileNotFoundError, fs)) /\
  (jpop_dataset_csv fs <> None -> audio_features_dataset_csv fs <> None ->
   combined_dataset_csv fs = None ->
   exists fs',
     data_clean fs = (Raise FileNotFoundError, fs') /\
     combined_dataset_csv fs' = None /\
     forall k, (In k (ids jpop_dataset fs') <-> shared fs k) /\
               (In k (ids audio_features_dataset fs') <-> shared fs k)).
Proof.
  unfold data_clean, io_bind, read_csv, to_csv, remove_comma, shared, ids. simpl contents.
  destruct (jpop_dataset_csv fs) as [j|], (audio_features_dataset_csv fs) as [a|];
    (split; [intros [H|H]; try discriminate H; reflexivity|]); intros Hj Ha Hc;
    try congruence.
  simpl. rewrite Hc. eexists. split; [reflexivity|]. split; [reflexivity|].
  intros k. simpl. rewrite clean_jpop_ids, clean_audio_ids, common_In. tauto.
Qed.

Lemma data_clean_failures_witness :
  exists fs',
    data_clean {| jpop_dataset_csv := jpop_dataset_csv Examples.store0;
                  audio_features_dataset_csv := audio_features_dataset_csv Examples.store0;
                  combined_dataset_csv := None |} = (Raise FileNotFoundError, fs') /\
    jpop_dataset_csv fs' = Some [Examples.song "a" "Alpha" "x"].
Proof.
  destruct (proj2 (data_clean_failures
                     {| jpop_dataset_csv := jpop_dataset_csv Examples.store0;
                        audio_features_dataset_csv :=
                          audio_features_dataset_csv Examples.store0;
                        combined_dataset_csv := None |}))
    as (fs' & E & _); try discriminate; try reflexivity.
  exists fs'. split; [exact E|]. now injection E as <-.
Defined.

End StoreFacts.

(** ** The requests of [get_audio_features] *)

Module ServiceFacts.

Import Pandas Utility Views PandasFacts UtilityFacts.

Lemma for_each_map (A B S : Type) (g : A -> B) (body : B -> S -> result S) (xs : list A) :
  forall s, for_each (map g xs) body s = for_each xs (fun x => body (g x)) s.
Proof.
  induction xs as [|x xs IH]; intros s; simpl; [reflexivity|].
  destruct (body (g x) s); [apply IH|reflexivity].
Qed.

Lemma get_audio_features_requests (track_ids : list string) (sp : Spotify.Client) :
  get_audio_features track_ids sp = for_each (batches track_ids) (extend sp) [].
Proof. unfold get_audio_features, batches. now rewrite for_each_map. Qed.

Lemma range_from_In (count : nat) :
  forall start step i,
    In i (range_from count start step) ->
    exists j, (j < count)%nat /\ i = (start + j * step)%nat.
Proof.
  induction count as [|count IH]; intros start step i; simpl; [tauto|].
  intros [<-|H].
  - exists 0%nat. lia.
  - apply IH in H as (j & Hj & ->). exists (S j). lia.
Qed.

Lemma batches_sizes (track_ids : list string) :
  Forall (fun batch => (1 <= length batch <= 100)%nat) (batches track_ids).
Proof.
  apply Forall_forall. intros batch H. unfold batches in H.
  apply in_map_iff in H as (i & <- & H).
  apply range_from_In in H as (j & Hj & ->).
  rewrite slice_step, length_firstn, length_skipn.
  pose proof (Nat.Div0.mul_div_le (length track_ids - 0 + (100 - 1)) 100). lia.
Qed.

Lemma requests_return (sp : Spotify.Client) (bs : list (list string)) :
  forall acc out,
    for_each bs (extend sp) acc = Ok out <->
    exists answers, answered sp bs answers /\ out = acc ++ non_null_dicts (concat answers).
Proof.
  unfold answered.
  induction bs as [|b bs IH]; intros acc out; simpl.
  - split.
    + intros [= <-]. exists []. split; [constructor|]. simpl. now rewrite app_nil_r.
    + intros (answers & H & ->). inversion H. simpl. now rewrite app_nil_r.
  - unfold extend at 1. destruct (Spotify.audio_features sp b) as [ans|e] eqn:E; simpl.
    + rewrite IH. split.
      * intros (answers & H & ->). exists (ans :: answers). split; [now constructor|].
        simpl. now rewrite non_null_dicts_app, app_assoc.
      * intros (answers & H & ->). inversion H as [|? ans' ? answers' E' H']; subst.
        assert (ans' = ans) as -> by congruence.
        exists answers'. split; [exact H'|].
        simpl. now rewrite non_null_dicts_app, app_assoc.
    + split; [discriminate|].
      intros (answers & H & _). inversion H; subst. congruence.
Qed.

Lemma requests_raise (sp : Spotify.Client) (bs : list (list string)) (e : exn) :
  forall acc,
    for_each bs (extend sp) acc = Raise e <->
    exists done batch rest answers,
      bs = done ++ batch :: rest /\ answered sp done answers /\
      Spotify.audio_features sp batch = Raise e.
Proof.
  unfold answered.
  induction bs as [|b bs IH]; intros acc; simpl.
  - split; [discriminate|]. intros (done & batch & rest & answers & H & _).
    now destruct done.
  - unfold extend at 1. destruct (Spotify.audio_features sp b) as [ans|e0] eqn:E; simpl.
    + rewrite IH. split.
      * intros (done & batch & rest & answers & -> & H & Hb).
        exists (b :: done), batch, rest, (ans :: answers).
        split; [reflexivity|]. split; [now constructor|exact Hb].
      * intros (done & batch & rest & answers & Hbs & H & Hb).
        destruct done as [|b' done]; simpl in Hbs; injection Hbs as -> ->; [congruence|].
        inversion H as [|? ? ? answers' _ H']; subst.
        now exists done, batch, rest, answers'.
    + split.
      * intros [= ->]. exists [], b, bs, []. split; [reflexivity|].
        split; [constructor|exact E].
      * intros (done & batch & rest & answers & Hbs & H & Hb).
        destruct done as [|b' done]; simpl in Hbs; injection Hbs as -> ->; [congruence|].
        inversion H; subst. congruence.
Qed.

(** X4: the requests of [get_audio_features].  It asks the service for
    consecutive batches of 1 to 100 track ids that together are the input
    list, in order.  It returns when every batch is answered, with the
    dictionaries of the non-null answers in order; it raises e when the
    first batch that is not answered raises e. *)
Theorem get_audio_features_batches (track_ids : list string) (sp : Spotify.Client) :
  concat (batches track_ids) = track_ids /\
  Forall (fun batch => (1 <= length batch <= 100)%nat) (batches track_ids) /\
  (forall out,
     get_audio_features track_ids sp = Ok out <->
     exists answers,
       answered sp (batches track_ids) answers /\ out = non_null_dicts (concat answers)) /\
  (forall e,
     get_audio_features track_ids sp = Raise e <->
     exists done batch rest answers,
       batches track_ids = done ++ batch :: rest /\ answered sp done answers /\
       Spotify.audio_features sp batch = Raise e).
Proof.
  split; [apply batches_concat|]. split; [apply batches_sizes|].
  rewrite get_audio_features_requests. split.
  - intros out. apply (requests_return sp (batches track_ids) []).
  - intros e. apply requests_raise.
Qed.

End ServiceFacts.

(** ** Clustering a table for the first time *)

Module ClusteringFacts.

Import Pandas Utility Views PandasFacts UtilityFacts.

Lemma map_fst_combine (A B : Type) (l : list A) :
  forall l' : list B, length l' = length l -> map fst (combine l l') = l.
Proof.
  induction l as [|x l IH]; intros [|y l']; simpl; try discriminate; [reflexivity|].
  intros [= H]. now rewrite IH.
Qed.

Lemma map_snd_combine (A B : Type) (l : list A) :
  forall l' : list B, length l' = length l -> map snd (combine l l') = l'.
Proof.
  induction l as [|x l IH]; intros [|y l']; simpl; try discriminate; [reflexivity|].
  intros [= H]. now rewrite IH.
Qed.

Lemma get_set_feature_other (g f : Feature) (x : float) (a : AudioVector) :
  g <> f -> get_feature g (set_feature f x a) = get_feature g a.
Proof.
  intros H. unfold set_feature. rewrite get_feature_tabulate.
  destruct (Feature_eqb g f) eqn:E; [|reflexivity].
  now apply Feature_eqb_eq in E.
Qed.

Lemma get_set_features_other (g : Feature) (features : list Feature) :
  ~ In g features ->
  forall values a, get_feature g (set_features features values a) = get_feature g a.
Proof.
  unfold set_features.
  induction features as [|f features IH]; intros Hg values a; [reflexivity|].
  destruct values as [|x values]; [reflexivity|]. simpl.
  rewrite IH by (intros H; apply Hg; now right).
  apply get_set_feature_other. intros ->. apply Hg. now left.
Qed.

Section Estimators.

Variable mean : list float -> float.
Variable StandardScaler_fit_transform : list (list float) -> list (list float).
Variable KMeans_fit_predict : nat -> list (list float) -> list Z.

Lemma assign_returns (features : list Feature) (X : list (list float))
    (df scaled : list Row) :
  assign features X df = Ok scaled ->
  length X = length df /\
  scaled = map (fun rx => with_audio (fst rx)
                            (set_features features (snd rx) (u_audio (record (fst rx)))))
               (combine df X).
Proof.
  unfold assign. destruct (Nat.eqb_spec (length X) (length df)) as [E|E]; simpl.
  - now intros [= <-].
  - discriminate.
Qed.

Lemma impute_kept (features : list Feature) (df imputed : list Row) :
  impute mean features df = Ok imputed -> Forall2 (kept features) df imputed.
Proof.
  intros H. apply impute_returns in H as ->.
  induction df as [|r rs IH] at 1 3; simpl; constructor; [|exact IH].
  repeat split. intros g Hg. simpl. rewrite get_feature_tabulate.
  now apply imputed_cell_other.
Qed.

Lemma assign_kept (features : list Feature) (X : list (list float)) (df scaled : list Row) :
  assign features X df = Ok scaled -> Forall2 (kept features) df scaled.
Proof.
  intros H. apply assign_returns in H as [Hlen ->]. revert X Hlen.
  induction df as [|r rs IH]; intros [|x X]; simpl; try discriminate; [constructor|].
  intros [= Hlen]. constructor; [|now apply IH].
  repeat split. intros g Hg. simpl. now apply get_set_features_other.
Qed.

Lemma kept_columns (features : list Feature) (df df' : list Row) :
  Forall2 (kept features) df df' ->
  length df' = length df /\
  map index df' = map index df /\
  map (fun r => u_track (record r)) df' = map (fun r => u_track (record r)) df /\
  map cluster df' = map cluster df /\
  forall g, ~ In g features -> column g df' = column g df.
Proof.
  induction 1 as [|r r' df df' (Hi & Ht & Hc & Hg) _ (IHl & IHi & IHt & IHc & IHg)]; simpl.
  - repeat split; reflexivity.
  - rewrite IHl, Hi, IHi, Ht, IHt, Hc, IHc. repeat split.
    intros g H. unfold column in *. simpl. now rewrite Hg, IHg.
Qed.

(** X5: clustering a table that has no [cluster] column.  When
    [apply_clustering] returns, the table is not empty and has the column;
    every row carries a label, the one k-means computed, with
    k = min(10, len(df)), on the feature columns of the returned table; the
    index, the metadata and the columns outside [features] are as they
    were.  A second run on the result keeps every label. *)
Theorem apply_clustering_labels_every_row (df df1 : DataFrame) (features : list Feature) :
  cluster_in_columns df = false ->
  apply_clustering mean StandardScaler_fit_transform KMeans_fit_predict df features = Ok df1 ->
  cluster_in_columns df1 = true /\
  rows df <> [] /\
  map cluster (rows df1) =
    map Some (KMeans_fit_predict (Nat.min 10 (length (rows df)))
                                 (matrix features (rows df1))) /\
  map index (rows df1) = map index (rows df) /\
  map (fun r => u_track (record r)) (rows df1) =
    map (fun r => u_track (record r)) (rows df) /\
  (forall g, ~ In g features -> column g (rows df1) = column g (rows df)) /\
  (forall df2,
     apply_clustering mean StandardScaler_fit_transform KMeans_fit_predict df1 features
       = Ok df2 ->
     cluster_in_columns df2 = true /\ map cluster (rows df2) = map cluster (rows df1)).
Proof.
  intros Hcol H. unfold apply_clustering in H. rewrite Hcol in H. cbn [negb] in H.
  remember (Nat.min 10) as k eqn:Ek in *. clear Ek.
  destruct (impute mean features (rows df)) as [imputed|e] eqn:Eimp; [|discriminate].
  cbn [bind] in H.
  destruct (assign features (StandardScaler_fit_transform (matrix features imputed)) imputed)
    as [scaled|e] eqn:Eas; [|discriminate].
  cbn [bind] in H. cbv zeta in H.
  destruct (Nat.eqb_spec
              (length (KMeans_fit_predict (k (length scaled)) (matrix features scaled)))
              (length scaled)) as [Hlen|Hlen]; cbn [negb] in H; [|discriminate].
  injection H as <-. cbn [rows cluster_in_columns].
  destruct (kept_columns (impute_kept _ _ Eimp)) as (L1 & I1 & T1 & _ & G1).
  destruct (kept_columns (assign_kept _ _ _ Eas)) as (L2 & I2 & T2 & _ & G2).
  set (labels := KMeans_fit_predict (k (length scaled)) (matrix features scaled)) in *.
  set (rows1 := map (fun rl => with_cluster (fst rl) (Some (snd rl)))
                    (combine scaled labels)).
  assert (map record rows1 = map record scaled) as Hrec.
  { unfold rows1. rewrite map_map.
    transitivity (map record (map fst (combine scaled labels))); [now rewrite map_map|].
    now rewrite map_fst_combine. }
  assert (forall (B : Type) (h : Unified -> B),
            map (fun r => h (record r)) rows1 = map (fun r => h (record r)) scaled) as Hvia.
  { intros B h. rewrite <- (map_map record h), Hrec. apply map_map. }
  assert (matrix features rows1 = matrix features scaled) as Hm.
  { apply (Hvia _ (fun u => map (fun f => get_feature f (u_audio u)) features)). }
  split; [reflexivity|]. split.
  { intros E. rewrite E in Eimp. discriminate. }
  split.
  { rewrite Hm, <- L1, <- L2. fold labels. unfold rows1. rewrite map_map.
    transitivity (map Some (map snd (combine scaled labels))); [now rewrite map_map|].
    now rewrite map_snd_combine. }
  split.
  { rewrite <- I1, <- I2. unfold rows1. rewrite map_map.
    transitivity (map index (map fst (combine scaled labels))); [now rewrite map_map|].
    now rewrite map_fst_combine. }
  split.
  { rewrite <- T1, <- T2. apply (Hvia _ u_track). }
  split.
  { intros g Hg. rewrite <- (G1 g Hg), <- (G2 g Hg).
    apply (Hvia _ (fun u => get_feature g (u_audio u))). }
  intros df2 H2. unfold apply_clustering in H2. cbn [cluster_in_columns rows negb] in H2.
  destruct (impute mean features rows1) as [imputed2|e] eqn:Eimp2; [|discriminate].
  cbn [bind] in H2. injection H2 as <-. cbn [rows cluster_in_columns].
  split; [reflexivity|].
  now destruct (kept_columns (impute_kept _ _ Eimp2)) as (_ & _ & _ & C & _).
Qed.

End Estimators.

Lemma apply_clustering_labels_every_row_witness :
  exists df1,
    apply_clustering Examples.np_mean Examples.scaler Examples.kmeans Scenarios.df_raw
      [Energy; Tempo] = Ok df1 /\
    map cluster (rows df1) = [Some 0%Z; Some 0%Z] /\
    map index (rows df1) = [0; 1]%nat.
Proof.
  assert (exists df1,
            apply_clustering Examples.np_mean Examples.scaler Examples.kmeans
              Scenarios.df_raw [Energy; Tempo] = Ok df1) as [df1 E].
  { eexists. vm_compute. reflexivity. }
  exists df1. split; [exact E|].
  destruct (apply_clustering_labels_every_row Examples.np_mean Examples.scaler Examples.kmeans
              Scenarios.df_raw [Energy; Tempo] eq_refl E) as (_ & _ & C & I & _).
  split; [|exact I].
  rewrite C. unfold Examples.kmeans, matrix. rewrite !map_map.
  simpl in I. destruct (rows df1) as [|r1 [|r2 [|r3 rs]]]; try discriminate I.
  reflexivity.
Defined.

End ClusteringFacts.

(** ** The loader of new tracks *)

Module LoaderFacts.

Import Pandas Utility Loader PandasFacts UtilityFacts.

Lemma non_null_dicts_ids (lookup : string -> option Spotify.AudioFeaturesObject)
    (l : list string) (k : string) :
  (forall id o, lookup id = Some o -> Spotify.afo_id o = id) ->
  In k (map af_track_id (non_null_dicts (map lookup l))) <-> In k l /\ lookup k <> None.
Proof.
  intros Hid. induction l as [|x l IH]; simpl; [tauto|].
  destruct (lookup x) as [o|] eqn:E; simpl.
  - rewrite IH, (Hid _ _ E). split.
    + intros [<-|[H1 H2]]; [split; [now left|congruence]|tauto].
    + intros [[<-|H1] H2]; [now left|right; tauto].
  - rewrite IH. split; [tauto|]. intros [[<-|H1] H2]; [congruence|tauto].
Qed.

(** Rows with fresh, distinct ids are appended as they are. *)
Lemma save_to_csv_new_rows (R : Set) (tracks existing : list R) (f : filename R)
    (fs : Files) :
  contents f fs = Some existing ->
  NoDup (map (id_column f) existing) ->
  NoDup (map (id_column f) tracks) ->
  (forall k, In k (map (id_column f) tracks) -> ~ In k (map (id_column f) existing)) ->
  save_to_csv tracks f fs = (Ok tt, write f (existing ++ tracks) fs).
Proof.
  intros E Hnd Hnd' Hnew. rewrite save_to_csv_run. cbv zeta. rewrite E.
  rewrite !dd_fixed by assumption. rewrite filter_id; [reflexivity|].
  intros x Hx. apply negb_true_iff, isin_false, Hnew. now apply in_map.
Qed.

(** The rows read back by [append_new]: the last old row and the first new
    rows, as many as there were old rows, or one when there was none. *)
Lemma window_rows (A : Type) (j array : list A) :
  firstn (S (length j)) (skipn (length j - 1) (j ++ array)) =
  skipn (length j - 1) j ++ firstn (Nat.max 1 (length j)) array.
Proof.
  destruct j as [|t j]; [reflexivity|].
  cbn [length]. replace (S (length j) - 1)%nat with (length j) by lia.
  rewrite skipn_app. replace (length j - length (t :: j))%nat with 0%nat
    by (cbn [length]; lia).
  cbn [skipn]. rewrite firstn_app.
  assert (length (skipn (length j) (t :: j)) = 1%nat) as L
      by (rewrite length_skipn; cbn [length]; lia).
  rewrite L, firstn_all2 by lia. reflexivity.
Qed.

Lemma skipn_In (A : Type) (m : nat) (l : list A) (x : A) : In x (skipn m l) -> In x l.
Proof. intros H. rewrite <- (firstn_skipn m l). apply in_or_app. now right. Qed.

Lemma firstn_skipn_disjoint (A : Type) (key : A -> string) (m : nat) (l : list A) (x : A) :
  NoDup (map key l) -> In x (skipn m l) -> ~ In (key x) (map key (firstn m l)).
Proof.
  intros Hnd Hx Hin. rewrite <- (firstn_skipn m l), map_app in Hnd.
  apply in_map_iff in Hin as (y & Ey & Hy).
  apply (in_map key) in Hx. apply (in_map key) in Hy. rewrite Ey in Hy.
  revert Hnd Hx Hy. generalize (map key (firstn m l)) (map key (skipn m l)) (key x).
  intros a b k Hnd Hb Ha. induction a as [|z a IH]; [destruct Ha|].
  simpl in Hnd. apply NoDup_cons_iff in Hnd as [Hz Hnd].
  destruct Ha as [->|Ha]; [|now apply IH].
  apply Hz, in_app_iff. now right.
Qed.

(** X6: [append_new] asks for the audio features of a window that is
    shifted by one row and no longer than the old table.  Take a metadata
    table of n rows with distinct track_ids, to which [array] adds rows with
    fresh, distinct track_ids, and a service that answers every request, id
    by id, with an analysis or with null.  Then
    [jdf], the rows whose features are requested, is made of the last old
    row and of the first max(1, n) new rows; a track is left in the metadata
    table iff it has audio features on file or is a row of [jdf] with a
    non-null answer.  So each new track after the first max(1, n), unless
    its features were on file, is removed again. *)
Theorem append_new_requests_a_shifted_window (sp : Spotify.Client)
    (lookup : string -> option Spotify.AudioFeaturesObject)
    (array j : list Track) (a : list AudioFeatures) (fs : Files) :
  jpop_dataset_csv fs = Some j ->
  audio_features_dataset_csv fs = Some a ->
  combined_dataset_csv fs <> None ->
  NoDup (map track_id j) ->
  NoDup (map track_id array) ->
  (forall k, In k (map track_id array) -> ~ In k (map track_id j)) ->
  (forall batch, Spotify.audio_features sp batch = Ok (map lookup batch)) ->
  (forall id o, lookup id = Some o -> Spotify.afo_id o = id) ->
  let n := length j in
  let jdf := skipn (n - 1) j ++ firstn (Nat.max 1 n) array in
  exists fs',
    append_new array sp fs = (Ok tt, fs') /\
    (forall k,
       In k (ids jpop_dataset fs') <->
       In k (map track_id (j ++ array)) /\
       (In k (map af_track_id a) \/ In k (map track_id jdf) /\ lookup k <> None)) /\
    (forall t,
       In t (skipn (Nat.max 1 n) array) ->
       ~ In (track_id t) (map af_track_id a) ->
       ~ In (track_id t) (ids jpop_dataset fs')).
Proof.
  intros Hj Ha Hc Hndj Hnda Hnew Hsp Hid n jdf.
  destruct (combined_dataset_csv fs) as [c|] eqn:Ec; [clear Hc|congruence].
  unfold append_new, io_bind.
  rewrite (save_to_csv_new_rows array jpop_dataset fs Hj Hndj Hnda Hnew).
  unfold read_csv, read_csv_rows. rewrite contents_write_same.
  replace (Z.of_nat (length (j ++ array)) - Z.of_nat (length array))%Z
    with (Z.of_nat (length j)) by (rewrite length_app; lia).
  destruct (Z.ltb_spec (Z.of_nat (length j) + 1) 0) as [Hneg|_]; [lia|].
  replace (Z.to_nat (Z.of_nat (length j) + 1)) with (S (length j)) by lia.
  replace (Z.to_nat (Z.of_nat (length j) - 1)) with (length j - 1)%nat by lia.
  rewrite contents_write_same. rewrite window_rows. fold n. fold jdf.
  unfold lift. rewrite (get_audio_features_returns sp lookup Hsp).
  set (fs1 := write jpop_dataset (j ++ array) fs).
  set (features := non_null_dicts (map lookup (map track_id jdf))).
  pose proof (save_to_csv_ids features audio_features_dataset fs1) as Hids.
  rewrite save_to_csv_run in *. cbv zeta in *. cbn [snd] in Hids.
  set (fs2 := write audio_features_dataset _ fs1) in *.
  assert (exists a2, audio_features_dataset_csv fs2 = Some a2) as [a2 Ha2]
      by (eexists; reflexivity).
  pose proof (@data_clean_run fs2 (j ++ array) a2 c eq_refl Ha2 Ec) as Hdc.
  cbv zeta in Hdc. eexists. split; [exact Hdc|].
  assert (forall k,
            In k (ids jpop_dataset (snd (data_clean fs2))) <->
            In k (map track_id (j ++ array)) /\
            (In k (map af_track_id a) \/ In k (map track_id jdf) /\ lookup k <> None))
    as Hafter.
  { intros k. destruct (@data_clean_ids _ _ k Hdc) as (Hk & _). cbv zeta in Hk.
    rewrite Hdc. cbn [snd]. rewrite Hk, Hids.
    unfold features. rewrite (non_null_dicts_ids lookup _ k Hid).
    unfold ids, fs1. simpl. rewrite Ha. tauto. }
  rewrite Hdc in Hafter. cbn [snd] in Hafter.
  split; [exact Hafter|].
  intros t Ht Hna Hin. apply Hafter in Hin as [_ [Hin|[Hin _]]]; [contradiction|].
  unfold jdf in Hin. rewrite map_app, in_app_iff in Hin. destruct Hin as [Hin|Hin].
  - apply (Hnew (track_id t)).
    + apply in_map. eapply skipn_In; exact Ht.
    + apply in_map_iff in Hin as (y & Ey & Hy). rewrite <- Ey. apply in_map.
      eapply skipn_In; exact Hy.
  - now apply (firstn_skipn_disjoint track_id (Nat.max 1 n) array t).
Qed.

Lemma append_new_requests_a_shifted_window_witness :
  exists fs',
    append_new [Examples.song "b" "Beta" "y"; Examples.song "c" "Gamma" "y"]
      Scenarios.sp_up Examples.store1 = (Ok tt, fs') /\
    ~ In "c" (ids jpop_dataset fs').
Proof.
  destruct (@append_new_requests_a_shifted_window Scenarios.sp_up Scenarios.lookup_all
              [Examples.song "b" "Beta" "y"; Examples.song "c" "Gamma" "y"]
              [Examples.song "a" "Alpha" "x"] [Examples.analysis "a" 0.5%float]
              Examples.store1 eq_refl eq_refl)
    as (fs' & E & _ & Hdrop).
  - discriminate.
  - repeat constructor. simpl. tauto.
  - repeat constructor; simpl; intuition discriminate.
  - simpl. intros k [<-|[<-|[]]] [H|[]]; discriminate H.
  - reflexivity.
  - intros id o [= <-]. reflexivity.
  - exists fs'. split; [exact E|].
    apply (Hdrop (Examples.song "c" "Gamma" "y")).
    + simpl. now left.
    + simpl. intuition discriminate.
Defined.

End LoaderFacts.

(** ** app.py *)

Module AppFacts.

Import Pandas Utility Backend App Views PandasFacts UtilityFacts BackendFacts.

Lemma triple_ret (A : Type) (a : A) (Q : A -> State -> Prop) (E : State -> Prop) :
  triple (Q a) (app_ret a) Q E.
Proof. intros st H. exact H. Qed.

Lemma triple_bind (A B : Type) (P : State -> Prop) (m : AppIO A) (k : A -> AppIO B)
    (Q : A -> State -> Prop) (R : B -> State -> Prop) (E : State -> Prop) :
  triple P m Q E -> (forall a, triple (Q a) (k a) R E) -> triple P (app_bind m k) R E.
Proof.
  intros Hm Hk st HP. unfold app_bind. specialize (Hm st HP).
  destruct (m st) as [[a|e] st']; [now apply Hk|exact Hm].
Qed.

Lemma triple_weaken (A : Type) (P P' : State -> Prop) (m : AppIO A)
    (Q Q' : A -> State -> Prop) (E E' : State -> Prop) :
  (forall st, P' st -> P st) -> (forall a st, Q a st -> Q' a st) ->
  (forall st, E st -> E' st) ->
  triple P m Q E -> triple P' m Q' E'.
Proof.
  intros HP HQ HE Hm st H. specialize (Hm st (HP st H)).
  destruct (m st) as [[a|e] st']; auto.
Qed.

Lemma triple_pure (A : Type) (fact : Prop) (P : State -> Prop) (m : AppIO A)
    (Q : A -> State -> Prop) (E : State -> Prop) :
  (fact -> triple P m Q E) -> triple (fun st => fact /\ P st) m Q E.
Proof. intros H st [Hf HP]. now apply H. Qed.

Section Frame.

(** A property of the global table. *)
Variable I : DataFrame -> Prop.

Let holds (st : State) : Prop := I (combined_df st).

Lemma triple_on_files (A : Type) (m : IO A) :
  triple holds (on_files m) (fun _ => holds) holds.
Proof.
  intros st H. unfold on_files. destruct (m (files st)) as [[a|e] fs]; exact H.
Qed.

Lemma triple_lift (A : Type) (m : result A) (a0 : A) :
  m = Ok a0 ->
  triple holds (on_files (lift m)) (fun a st => a = a0 /\ holds st) holds.
Proof. intros -> st H. unfold on_files, lift. now split. Qed.

Lemma triple_get_combined_df :
  triple holds get_combined_df (fun df st => I df /\ holds st) holds.
Proof. intros st H. now split. Qed.

(** [hybrid_recommendation] raises on a table without [cluster] column. *)
Lemma triple_hybrid_recommendation (sp : Spotify.Client) (backend_combined_df : DataFrame)
    (kneighbors : nat -> Z -> result (list nat)) (rng_cluster rng_final : list nat)
    (id : string) (df : DataFrame) (a b c : Z) :
  cluster_in_columns df = false ->
  triple holds
    (on_files (hybrid_recommendation sp backend_combined_df kneighbors rng_cluster rng_final
                 id df a b c))
    (fun _ _ => False) holds.
Proof.
  intros Hdf st H. unfold on_files.
  destruct (hybrid_recommendation _ _ _ _ _ _ _ _ _ _ (files st)) as [[r|e] fs] eqn:E;
    [|exact H].
  apply RecommenderFacts.hybrid_recommendation_returns in E as (cr & co & Hcl & _).
  apply RecommenderFacts.recommend_from_cluster_returns_inv in Hcl as [Hc _]. congruence.
Qed.

End Frame.

Lemma triple_set_combined_df (P : State -> Prop) (df : DataFrame) (E : State -> Prop) :
  triple P (set_combined_df df) (fun _ st => combined_df st = df) E.
Proof. intros st _. reflexivity. Qed.

Section Globals.

Variable sp : Spotify.Client.
Variable search : string -> string -> result (list string).
Variable artist_top_tracks : string -> string -> result (list Spotify.TrackObject).
Variable str : exn -> string.
Variable backend_sp : Spotify.Client.
Variable backend_combined_df : DataFrame.
Variable kneighbors : nat -> Z -> result (list nat).

(** X7: an artist whose top track is not in the table gets no
    recommendations.  [rec] adds the track to the files and reloads the
    global table from the unified file, which has no [cluster] column; the
    call of [hybrid_recommendation] on the reloaded table then raises.  So
    [rec] raises in every case, and leaves the global table either as it
    was, when the addition itself raised, or reloaded, without [cluster]
    column. *)
Theorem rec_artist_with_new_top_track (rng_cluster rng_final : list nat)
    (input_text artist_id : string) (top : Spotify.TrackObject)
    (others : list Spotify.TrackObject) (st : State) :
  truthy (get_artist_id_from_name search str input_text) = Some artist_id ->
  artist_top_tracks artist_id "US" = Ok (top :: others) ->
  isin (Spotify.tr_id top) (map row_track_id (rows (combined_df st))) = false ->
  exists e st',
    rec sp search artist_top_tracks str backend_sp backend_combined_df kneighbors
        rng_cluster rng_final input_text ArtistInput st = (Raise e, st') /\
    (combined_df st' = combined_df st \/
     exists table, combined_df st' = read_frame table).
Proof.
  intros Hid Htop Hnew.
  set (d0 := combined_df st) in *.
  set (I := fun d => d = d0 \/ exists table, d = read_frame table).
  assert (triple (fun s => combined_df s = d0)
            (rec sp search artist_top_tracks str backend_sp backend_combined_df kneighbors
               rng_cluster rng_final input_text ArtistInput)
            (fun _ _ => False) (fun s => I (combined_df s))) as H.
  { unfold rec. rewrite Hid.
    eapply triple_bind.
    { eapply triple_weaken; [| | |apply (triple_lift (eq d0) Htop)]; cbv beta.
      - intros s Hs. now symmetry.
      - intros a s Ha. exact Ha.
      - intros s Hs. left. now symmetry. }
    intros top_tracks. cbv beta. apply triple_pure. intros ->. cbv zeta.
    eapply triple_bind.
    { eapply triple_weaken; [| | |apply (triple_get_combined_df (eq d0))]; cbv beta.
      - intros s Hs. exact Hs.
      - intros a s Ha. exact Ha.
      - intros s Hs. left. now symmetry. }
    intros df. cbv beta. apply triple_pure. intros <-. rewrite Hnew. cbn [negb].
    eapply triple_bind with (Q := fun _ s => exists table, combined_df s = read_frame table).
    { eapply triple_bind.
      { eapply triple_weaken; [| | |apply (triple_on_files (eq d0))]; cbv beta.
        - intros s Hs. exact Hs.
        - intros a s Ha. exact Ha.
        - intros s Hs. left. now symmetry. }
      intros features. cbv beta. eapply triple_bind.
      { eapply triple_weaken; [| | |apply (triple_on_files (eq d0))]; cbv beta.
        - intros s Hs. exact Hs.
        - intros a s Ha. exact Ha.
        - intros s Hs. left. now symmetry. }
      intros u1. cbv beta. eapply triple_bind.
      { eapply triple_weaken; [| | |apply (triple_on_files (eq d0))]; cbv beta.
        - intros s Hs. exact Hs.
        - intros a s Ha. exact Ha.
        - intros s Hs. left. now symmetry. }
      intros u2. cbv beta. eapply triple_bind.
      { eapply triple_weaken; [| | |apply (triple_on_files (eq d0))]; cbv beta.
        - intros s Hs. exact Hs.
        - intros a s Ha. exact Ha.
        - intros s Hs. left. now symmetry. }
      intros u3. cbv beta. eapply triple_bind.
      { eapply triple_weaken; [| | |apply (triple_on_files (eq d0))]; cbv beta.
        - intros s Hs. exact Hs.
        - intros a s Ha. exact Ha.
        - intros s Hs. left. now symmetry. }
      intros table. cbv beta.
      eapply triple_weaken; [| | |apply triple_set_combined_df]; cbv beta.
      - intros s Hs. exact Hs.
      - intros a s Ha. now exists table.
      - intros s Hs. exact Hs. }
    intros u. cbv beta. eapply triple_bind.
    { eapply triple_weaken;
        [| | |apply (triple_get_combined_df (fun d => exists table, d = read_frame table))];
        cbv beta.
      - intros s Hs. exact Hs.
      - intros a s Ha. exact Ha.
      - intros s Hs. right. exact Hs. }
    intros df. cbv beta. apply triple_pure. intros (table & ->).
    eapply triple_bind.
    { eapply triple_weaken;
        [| | |apply (triple_hybrid_recommendation
                      (fun d => exists table, d = read_frame table))]; cbv beta.
      - intros s Hs. exact Hs.
      - intros a s Ha. exact Ha.
      - intros s Hs. right. exact Hs.
      - reflexivity. }
    intros recommendations s []. }
  specialize (H st eq_refl).
  destruct (rec _ _ _ _ _ _ _ _ _ _ _ st) as [[out|e] st']; [destruct H|].
  exists e, st'. split; [reflexivity|exact H].
Qed.

(** X8: without [cluster] column in the global table, [rec] recommends
    nothing.  Whatever the input, it raises or returns one of its messages,
    and the global table is still without [cluster] column afterwards: once
    an artist query has reloaded the table, all later queries fail in the
    same way. *)
Theorem rec_without_cluster_column (rng_cluster rng_final : list nat)
    (input_text : string) (input_type : InputType) (st : State) :
  cluster_in_columns (combined_df st) = false ->
  let outcome :=
    rec sp search artist_top_tracks str backend_sp backend_combined_df kneighbors
        rng_cluster rng_final input_text input_type st in
  cluster_in_columns (combined_df (snd outcome)) = false /\
  forall out, fst outcome = Ok out -> recommends out = false.
Proof.
  intros Hst. cbv zeta.
  set (I := fun d => cluster_in_columns d = false).
  assert (triple (fun s => I (combined_df s))
            (rec sp search artist_top_tracks str backend_sp backend_combined_df kneighbors
               rng_cluster rng_final input_text input_type)
            (fun out s => I (combined_df s) /\ recommends out = false)
            (fun s => I (combined_df s))) as H.
  { unfold rec. destruct input_type.
    - destruct (truthy _) as [track_id|].
      + eapply triple_bind; [apply (triple_get_combined_df I)|].
        intros df. cbv beta. apply triple_pure. intros Hdf.
        eapply triple_bind; [apply (triple_hybrid_recommendation I); exact Hdf|].
        intros recommendations s [].
      + intros s Hs. simpl. now split.
    - destruct (truthy _) as [artist_id|].
      + eapply triple_bind; [apply (triple_on_files I)|].
        intros top_tracks. cbv beta. destruct top_tracks as [|top others].
        * intros s Hs. simpl. now split.
        * cbv zeta. eapply triple_bind; [apply (triple_get_combined_df I)|].
          intros df. cbv beta. apply triple_pure. intros Hdf.
          eapply triple_bind with (Q := fun _ s => I (combined_df s)).
          { destruct (negb _).
            - eapply triple_bind; [apply (triple_on_files I)|]. intros features. cbv beta.
              eapply triple_bind; [apply (triple_on_files I)|]. intros u1. cbv beta.
              eapply triple_bind; [apply (triple_on_files I)|]. intros u2. cbv beta.
              eapply triple_bind; [apply (triple_on_files I)|]. intros u3. cbv beta.
              eapply triple_bind; [apply (triple_on_files I)|]. intros table. cbv beta.
              intros s Hs. reflexivity.
            - intros s Hs. exact Hs. }
          intros u. cbv beta.
          eapply triple_bind; [apply (triple_get_combined_df I)|].
          intros df'. cbv beta. apply triple_pure. intros Hdf'.
          eapply triple_bind; [apply (triple_hybrid_recommendation I); exact Hdf'|].
          intros recommendations s [].
      + intros s Hs. simpl. now split.
    - intros s Hs. simpl. now split. }
  specialize (H st Hst).
  destruct (rec _ _ _ _ _ _ _ _ _ _ _ st) as [[out|e] st']; simpl.
  - destruct H as [H1 H2]. split; [exact H1|]. now intros out' [= <-].
  - split; [exact H|]. discriminate.
Qed.

End Globals.

Lemma rec_artist_with_new_top_track_witness :
  exists e st',
    rec Scenarios.sp_up Scenarios.search Scenarios.artist_top_tracks Scenarios.str
        Scenarios.sp_up Examples.df5 (Examples.kneighbors 6) [] [] "Zed" ArtistInput
        Scenarios.app0 = (Raise e, st') /\
    (combined_df st' = combined_df Scenarios.app0 \/
     exists table, combined_df st' = read_frame table).
Proof.
  apply (@rec_artist_with_new_top_track Scenarios.sp_up Scenarios.search
           Scenarios.artist_top_tracks Scenarios.str Scenarios.sp_up Examples.df5
           (Examples.kneighbors 6) [] [] "Zed" "z"
           (Examples.track_object "g" "Eta" "Zed") [] Scenarios.app0);
    reflexivity.
Defined.

Lemma rec_without_cluster_column_witness :
  let outcome :=
    rec Scenarios.sp_up Scenarios.search Scenarios.artist_top_tracks Scenarios.str
        Scenarios.sp_up Examples.df5 (Examples.kneighbors 6) [] [] "Zed" ArtistInput
        {| files := Examples.store1; combined_df := Scenarios.df_raw |} in
  cluster_in_columns (combined_df (snd outcome)) = false /\
  forall out, fst outcome = Ok out -> recommends out = false.
Proof.
  apply (@rec_without_cluster_column Scenarios.sp_up Scenarios.search
           Scenarios.artist_top_tracks Scenarios.str Scenarios.sp_up Examples.df5
           (Examples.kneighbors 6) [] [] "Zed" ArtistInput
           {| files := Examples.store1; combined_df := Scenarios.df_raw |}).
  reflexivity.
Defined.

End AppFacts.
